(** * The chat client of the DSPy editor: message store, response ingestion
      and edit persistence

    A shallow embedding of [frontend/src/types.ts] and of the three callbacks
    of [frontend/src/App.tsx] ([markMessage], [handleSend], [handleSaveEdit]),
    with the properties of the conversation state machine proved over it. *)

From stdpp Require Import base option list strings pretty gmap.
From Stdlib Require Import Strings.Byte Strings.Ascii.

Set Warnings "-register-all".

(** ** Data model ([types.ts]) *)

Inductive Role := user | bot.

Inductive Status := streaming | ready | saving_edit | error_status.

(** [interface ChatMessage]: the optional members [turnId], [status] and
    [error] are [None] when the property is [undefined]. *)
Record ChatMessage := {
  id : string;
  role : Role;
  content : string;
  turnId : option string;
  status : option Status;
  error : option string
}.

(** [Partial<ChatMessage>]: every key may be missing from the object literal
    ([None]).  A key that is present holds a value of the member's type, so
    for the optional members a present key may hold [undefined]
    ([Some None]), as [turnId] and [error: undefined] do in [handleSend]. *)
Record Changes := {
  p_id : option string;
  p_role : option Role;
  p_content : option string;
  p_turnId : option (option string);
  p_status : option (option Status);
  p_error : option (option string)
}.

(** [{ ...message, ...changes }]: the keys of [changes] win. *)
Definition spread (message : ChatMessage) (changes : Changes) : ChatMessage :=
  {| id := default (id message) (p_id changes);
     role := default (role message) (p_role changes);
     content := default (content message) (p_content changes);
     turnId := default (turnId message) (p_turnId changes);
     status := default (status message) (p_status changes);
     error := default (error message) (p_error changes) |}.

(** ** Message store *)

(** The updater that [markMessage] hands to [setMessages] (App.tsx:16). *)
Definition markMessage_update (i : string) (changes : Changes)
    (prev : list ChatMessage) : list ChatMessage :=
  (fun message =>
     if decide (id message = i) then spread message changes else message)
  <$> prev.

(** The updater of App.tsx:38, for any number of new messages. *)
Definition append (new : list ChatMessage) (prev : list ChatMessage)
    : list ChatMessage :=
  prev ++ new.

Inductive StoreOp :=
| Append (new : list ChatMessage)
| Patch (i : string) (changes : Changes).

Definition apply_op (store : list ChatMessage) (op : StoreOp)
    : list ChatMessage :=
  match op with
  | Append new => append new store
  | Patch i changes => markMessage_update i changes store
  end.

Definition run_ops (ops : list StoreOp) (store : list ChatMessage)
    : list ChatMessage :=
  foldl apply_op store ops.

(** The ids that some patch of the sequence aims at. *)
Fixpoint patch_targets (ops : list StoreOp) : list string :=
  match ops with
  | [] => []
  | Append _ :: rest => patch_targets rest
  | Patch i _ :: rest => i :: patch_targets rest
  end.

(** ** JavaScript values

    What the callbacks see of the platform: numbers, parsed JSON data, thrown
    values, the text decoder and the [Response] of [fetch]. *)

(** A JavaScript number is kept abstract; the callbacks only convert it. *)
Class JsNumber := {
  number : Type;
  number_ToBoolean : number -> bool;
  number_ToString : number -> string;
  number_isFinite : number -> bool
}.

(** [new TextDecoder()]: [decode_stream] is [decoder.decode(value, { stream:
    true })], [decode_end] is the closing [decoder.decode()]. *)
Class TextDecoder := {
  decoder : Type;
  new_TextDecoder : decoder;
  decode_stream : decoder -> list byte -> string * decoder;
  decode_end : decoder -> string
}.

Definition dquote : ascii := ascii_of_nat 34.
Definition backslash : ascii := ascii_of_nat 92.

Definition hex_digit (n : N) : ascii :=
  if (n <? 10)%N then ascii_of_N (48 + n) else ascii_of_N (87 + n).

(** QuoteJSONString of ECMA-262, on text kept as its UTF-8 bytes. *)
Definition quote_char (c : ascii) : string :=
  let n := N_of_ascii c in
  if (n =? 8)%N then "\b"
  else if (n =? 9)%N then "\t"
  else if (n =? 10)%N then "\n"
  else if (n =? 12)%N then "\f"
  else if (n =? 13)%N then "\r"
  else if (n =? 34)%N then String backslash (String dquote EmptyString)
  else if (n =? 92)%N then String backslash (String backslash EmptyString)
  else if (n <? 32)%N then
    "\u00" +:+
    String (hex_digit (n / 16)) (String (hex_digit (n mod 16)) EmptyString)
  else String c EmptyString.

Fixpoint quote_chars (s : string) : string :=
  match s with
  | EmptyString => EmptyString
  | String c rest => quote_char c +:+ quote_chars rest
  end.

Definition QuoteJSONString (s : string) : string :=
  String dquote (quote_chars s +:+ String dquote EmptyString).

(** [s.includes(sub)] *)
Fixpoint includes (s sub : string) : bool :=
  String.prefix sub s ||
  match s with
  | EmptyString => false
  | String _ rest => includes rest sub
  end.

Section callbacks.
Context {Num : JsNumber} {Dec : TextDecoder}.

(** Data as [JSON.parse] returns it; the properties of an object are listed
    in the order in which the object enumerates them. *)
Inductive JsValue :=
| JNull
| JBool (b : bool)
| JNumber (n : number)
| JString (s : string)
| JArray (items : list JsValue)
| JObject (props : list (string * JsValue)).

Fixpoint lookup_property (key : string) (props : list (string * JsValue))
    : option JsValue :=
  match props with
  | [] => None
  | (k, v) :: rest =>
      if decide (k = key) then Some v else lookup_property key rest
  end.

(** [data?.key] for the two keys the callbacks read, [response] and
    [turn_id]: defined on no built-in prototype, so only an object can hold
    them; [None] is [undefined]. *)
Definition optional_get (data : JsValue) (key : string) : option JsValue :=
  match data with
  | JObject props => lookup_property key props
  | _ => None
  end.

(** Truthiness of a value that may be [undefined]. *)
Definition ToBoolean (v : option JsValue) : bool :=
  match v with
  | None => false
  | Some JNull => false
  | Some (JBool b) => b
  | Some (JNumber n) => number_ToBoolean n
  | Some (JString s) => negb (bool_decide (s = ""))
  | Some (JArray _) => true
  | Some (JObject _) => true
  end.

(** [String(v)] *)
Fixpoint ToString (v : JsValue) : string :=
  match v with
  | JNull => "null"
  | JBool b => if b then "true" else "false"
  | JNumber n => number_ToString n
  | JString s => s
  | JArray items =>
      String.concat ","
        (map (fun x => match x with JNull => "" | _ => ToString x end) items)
  | JObject _ => "[object Object]"
  end.

(** [JSON.stringify(v)] without indentation. *)
Fixpoint JSON_stringify (v : JsValue) : string :=
  match v with
  | JNull => "null"
  | JBool b => if b then "true" else "false"
  | JNumber n => if number_isFinite n then number_ToString n else "null"
  | JString s => QuoteJSONString s
  | JArray items =>
      "[" +:+ String.concat "," (map JSON_stringify items) +:+ "]"
  | JObject props =>
      "{" +:+
      String.concat ","
        (map (fun p =>
                QuoteJSONString (fst p) +:+ ":" +:+ JSON_stringify (snd p))
             props) +:+
      "}"
  end.

(** What a [catch] clause can receive. *)
Inductive Thrown :=
| JsError (message : string)
| NotAnError (value : JsValue).

Inductive Completion (A : Type) :=
| Normal (a : A)
| Throw (e : Thrown).
Arguments Normal {A} a.
Arguments Throw {A} e.

(** [response.body]: the chunks that [reader.read()] delivers, then either
    [done] ([None]) or a rejected read. *)
Record ReadableStream := {
  chunks : list (list byte);
  failure : option Thrown
}.

Record Response := {
  response_status : N;
  response_headers_get : string -> option string;
  response_body : option ReadableStream;
  response_json : Completion JsValue;
  response_text : Completion string
}.

(** [response.ok] *)
Definition response_ok (response : Response) : bool :=
  (200 <=? response_status response)%N &&
  (response_status response <=? 299)%N.

Record Request := {
  url : string;
  method : string;
  headers : list (string * string);
  body : string
}.

(** The backend and the transport: what [fetch] settles to. *)
Definition Network := Request -> Completion Response.

(** ** Component state and the effects of a callback *)

Record AppState := {
  messages : list ChatMessage;
  isGenerating : bool;
  errorMessage : option string
}.

(** [history] lists every value that [setMessages] installs, oldest first;
    [requests] every call of [fetch]; [warnings] every [console.warn]. *)
Record World := {
  app : AppState;
  history : list (list ChatMessage);
  requests : list Request;
  warnings : list (string * Thrown)
}.

Definition start (st : AppState) : World :=
  {| app := st; history := []; requests := []; warnings := [] |}.

Definition Async (A : Type) : Type := World -> Completion A * World.

#[local] Instance Async_ret : MRet Async := fun A a w => (Normal a, w).

#[local] Instance Async_bind : MBind Async := fun A B k m w =>
  match m w with
  | (Normal a, w') => k a w'
  | (Throw e, w') => (Throw e, w')
  end.

Definition throw {A} (e : Thrown) : Async A := fun w => (Throw e, w).

Definition await {A} (settled : Completion A) : Async A :=
  fun w => (settled, w).

Definition try_catch {A} (block : Async A) (handler : Thrown -> Async A)
    : Async A :=
  fun w =>
    match block w with
    | (Normal a, w') => (Normal a, w')
    | (Throw e, w') => handler e w'
    end.

Definition try_finally {A} (block : Async A) (finalizer : Async unit)
    : Async A :=
  fun w =>
    match block w with
    | (outcome, w') =>
        match finalizer w' with
        | (Normal _, w'') => (outcome, w'')
        | (Throw e, w'') => (Throw e, w'')
        end
    end.

Definition with_messages (next : list ChatMessage) (w : World) : World :=
  {| app := {| messages := next;
               isGenerating := isGenerating (app w);
               errorMessage := errorMessage (app w) |};
     history := history w ++ [next];
     requests := requests w;
     warnings := warnings w |}.

Definition with_isGenerating (value : bool) (w : World) : World :=
  {| app := {| messages := messages (app w);
               isGenerating := value;
               errorMessage := errorMessage (app w) |};
     history := history w;
     requests := requests w;
     warnings := warnings w |}.

Definition with_errorMessage (value : option string) (w : World) : World :=
  {| app := {| messages := messages (app w);
               isGenerating := isGenerating (app w);
               errorMessage := value |};
     history := history w;
     requests := requests w;
     warnings := warnings w |}.

Definition with_request (request : Request) (w : World) : World :=
  {| app := app w;
     history := history w;
     requests := requests w ++ [request];
     warnings := warnings w |}.

Definition with_warning (text : string) (e : Thrown) (w : World) : World :=
  {| app := app w;
     history := history w;
     requests := requests w;
     warnings := warnings w ++ [(text, e)] |}.

(** [setMessages((prev) => update(prev))]: the updater runs on the latest
    value of the state. *)
Definition setMessages (update : list ChatMessage -> list ChatMessage)
    : Async unit :=
  fun w => (Normal tt, with_messages (update (messages (app w))) w).

Definition setIsGenerating (value : bool) : Async unit :=
  fun w => (Normal tt, with_isGenerating value w).

Definition setErrorMessage (value : option string) : Async unit :=
  fun w => (Normal tt, with_errorMessage value w).

Definition fetch (net : Network) (request : Request) : Async Response :=
  fun w => (net request, with_request request w).

Definition console_warn (text : string) (e : Thrown) : Async unit :=
  fun w => (Normal tt, with_warning text e w).

(** ** The callbacks of [App] *)

(** [createId]: [random] stands for [crypto.randomUUID()] or the
    [Math.random()] fallback. *)
Definition createId (prefix random : string) : string :=
  prefix +:+ "-" +:+ random.

(** App.tsx:14 *)
Definition markMessage (i : string) (changes : Changes) : Async unit :=
  setMessages (markMessage_update i changes).

(** [contentType && contentType.includes('application/json')] *)
Definition is_json (contentType : option string) : bool :=
  match contentType with
  | None => false
  | Some t => negb (bool_decide (t = "")) && includes t "application/json"
  end.

(** [!turnId] for [turnId : string | undefined] *)
Definition no_turnId (turnId : option string) : bool :=
  match turnId with
  | None => true
  | Some t => bool_decide (t = "")
  end.

(** [error instanceof Error ? error.message : fallback] *)
Definition message_of (e : Thrown) (fallback : string) : string :=
  match e with
  | JsError message => message
  | NotAnError _ => fallback
  end.

(** The object literals handed to [markMessage], by source line. *)

(** App.tsx:77 *)
Definition streaming_patch (aggregate : string) : Changes :=
  {| p_id := None; p_role := None; p_content := Some aggregate;
     p_turnId := None; p_status := Some (Some streaming); p_error := None |}.

(** App.tsx:85 *)
Definition ready_patch (finalContent : string) (turnId : option string)
    : Changes :=
  {| p_id := None; p_role := None; p_content := Some finalContent;
     p_turnId := Some turnId; p_status := Some (Some ready);
     p_error := Some None |}.

(** App.tsx:93 *)
Definition error_patch (err : string) : Changes :=
  {| p_id := None; p_role := None; p_content := Some "";
     p_turnId := None; p_status := Some (Some error_status);
     p_error := Some (Some err) |}.

(** App.tsx:113 *)
Definition saving_patch : Changes :=
  {| p_id := None; p_role := None; p_content := None;
     p_turnId := None; p_status := Some (Some saving_edit); p_error := None |}.

(** App.tsx:139 *)
Definition saved_patch (updatedContent : string) : Changes :=
  {| p_id := None; p_role := None; p_content := Some updatedContent;
     p_turnId := None; p_status := Some (Some ready); p_error := Some None |}.

(** App.tsx:146 *)
Definition save_failed_patch (err : string) : Changes :=
  {| p_id := None; p_role := None; p_content := None;
     p_turnId := None; p_status := Some (Some ready);
     p_error := Some (Some err) |}.

(** App.tsx:23 *)
Definition userMessage (random_user prompt : string) : ChatMessage :=
  {| id := createId "user" random_user; role := user; content := prompt;
     turnId := None; status := Some ready; error := None |}.

(** App.tsx:31 *)
Definition botMessage (random_bot : string) : ChatMessage :=
  {| id := createId "bot" random_bot; role := bot; content := "";
     turnId := None; status := Some streaming; error := None |}.

(** The [while (true)] loop of App.tsx:71, by recursion on the chunks still
    to come; it returns the decoder and [aggregate] at the [break]. *)
Fixpoint read_all (botMessageId : string) (pending : list (list byte))
    (failure : option Thrown) (dec : decoder) (aggregate : string)
    : Async (decoder * string) :=
  match pending with
  | [] =>
      match failure with
      | None => mret (dec, aggregate)
      | Some e => throw e
      end
  | value :: rest =>
      let '(text, dec') := decode_stream dec value in
      let aggregate' := aggregate +:+ text in
      markMessage botMessageId (streaming_patch aggregate');;
      read_all botMessageId rest failure dec' aggregate'
  end.

Definition generate_request (prompt : string) : Request :=
  {| url := "/generate_response";
     method := "POST";
     headers := [("Content-Type", "application/json")];
     body := JSON_stringify (JObject [("prompt", JString prompt)]) |}.

(** App.tsx:59 *)
Definition json_content (data : JsValue) : string :=
  match optional_get data "response" with
  | Some (JString s) => s
  | _ => JSON_stringify data
  end.

(** App.tsx:64 *)
Definition json_turnId (turnId : option string) (data : JsValue)
    : option string :=
  if no_turnId turnId && ToBoolean (optional_get data "turn_id") then
    ToString <$> optional_get data "turn_id"
  else turnId.

(** App.tsx:53-83: the final content and the turn id of a response that is
    [ok]. *)
Definition resolve (botMessageId : string) (response : Response)
    : Async (string * option string) :=
  let contentType := response_headers_get response "content-type" in
  let turnId := response_headers_get response "x-turn-id" in
  if is_json contentType then
    data ← await (response_json response);
    mret (json_content data, json_turnId turnId data)
  else
    match response_body response with
    | Some stream =>
        '(dec, aggregate) ←
          read_all botMessageId (chunks stream) (failure stream)
            new_TextDecoder "";
        mret (aggregate +:+ decode_end dec, turnId)
    | None =>
        finalContent ← await (response_text response);
        mret (finalContent, turnId)
    end.

(** App.tsx:43-90, the block of the [try]. *)
Definition generate (net : Network) (botMessageId prompt : string)
    : Async unit :=
  response ← fetch net (generate_request prompt);
  if negb (response_ok response) then
    throw (JsError ("Unable to generate response (" +:+
                    pretty (response_status response) +:+ ")"))
  else
    '(finalContent, turnId) ← resolve botMessageId response;
    markMessage botMessageId (ready_patch finalContent turnId).

(** App.tsx:21 *)
Definition handleSend (net : Network) (random_user random_bot : string)
    (prompt : string) : Async unit :=
  let botMessageId := createId "bot" random_bot in
  setMessages
    (append [userMessage random_user prompt; botMessage random_bot]);;
  setIsGenerating true;;
  setErrorMessage None;;
  try_finally
    (try_catch
       (generate net botMessageId prompt)
       (fun error =>
          let err := message_of error "Unexpected error" in
          markMessage botMessageId (error_patch err);;
          setErrorMessage (Some err)))
    (setIsGenerating false).

(** The body of App.tsx:119; [JSON.stringify] leaves out a property whose
    value is [undefined]. *)
Definition save_edit_request (turn_id : option string) (content : string)
    : Request :=
  {| url := "/save_edit";
     method := "POST";
     headers := [("Content-Type", "application/json")];
     body := JSON_stringify
               (JObject
                  (match turn_id with
                   | Some t => [("turn_id", JString t)]
                   | None => []
                   end ++ [("content", JString content)])) |}.

(** [messages.find((message) => message.id === messageId)] *)
Fixpoint find_message (messageId : string) (rendered : list ChatMessage)
    : option ChatMessage :=
  match rendered with
  | [] => None
  | message :: rest =>
      if decide (id message = messageId) then Some message
      else find_message messageId rest
  end.

(** App.tsx:126-137 *)
Definition updated_content (response : Response) (content : string)
    : Async string :=
  let contentType := response_headers_get response "content-type" in
  if is_json contentType then
    try_catch
      (data ← await (response_json response);
       match optional_get data "response" with
       | Some (JString s) => mret s
       | _ => mret content
       end)
      (fun parseError =>
         console_warn "Unable to parse JSON response from save_edit"
           parseError;;
         mret content)
  else mret content.

(** App.tsx:106.  [rendered] is the [messages] value that the callback
    closed over when it was created; the patches go through [markMessage]
    and so act on the current store. *)
Definition handleSaveEdit (net : Network) (rendered : list ChatMessage)
    (messageId content : string) : Async unit :=
  let targetMessage := find_message messageId rendered in
  if no_turnId (targetMessage ≫= turnId) then
    throw (JsError "Missing turn ID for this message.")
  else
    markMessage messageId saving_patch;;
    try_catch
      (response ←
         fetch net (save_edit_request (targetMessage ≫= turnId) content);
       if negb (response_ok response) then
         throw (JsError ("Unable to save edit (" +:+
                         pretty (response_status response) +:+ ")"))
       else
         updatedContent ← updated_content response content;
         markMessage messageId (saved_patch updatedContent))
      (fun error =>
         let err := message_of error "Unexpected error while saving edit." in
         markMessage messageId (save_failed_patch err);;
         throw error).

(** ** What a run shows *)

(** The position at which [handleSend] puts its bot message. *)
Definition bot_slot (w : World) : nat := S (length (messages (app w))).

(** The stores installed between two worlds of one run. *)
Definition installed (before after : World) : list (list ChatMessage) :=
  drop (length (history before)) (history after).

(** What a reader of position [k] finds in each of them. *)
Definition seen_at (k : nat) (stores : list (list ChatMessage))
    : list (option ChatMessage) :=
  (fun store => store !! k) <$> stores.

(** The text that each chunk adds, and the decoder after the last chunk. *)
Fixpoint deltas (dec : decoder) (pending : list (list byte)) : list string :=
  match pending with
  | [] => []
  | value :: rest =>
      let '(text, dec') := decode_stream dec value in
      text :: deltas dec' rest
  end.

Fixpoint decoder_after (dec : decoder) (pending : list (list byte)) : decoder :=
  match pending with
  | [] => dec
  | value :: rest => decoder_after (snd (decode_stream dec value)) rest
  end.

(** The accumulator after each chunk, starting from [aggregate]. *)
Fixpoint accumulators (aggregate : string) (parts : list string)
    : list string :=
  match parts with
  | [] => []
  | text :: rest =>
      (aggregate +:+ text) :: accumulators (aggregate +:+ text) rest
  end.

(** The whole text decoded from the first [j] chunks. *)
Definition accumulated (parts : list string) (j : nat) : string :=
  String.concat "" (take j parts).

(** The text of a stream that closes normally. *)
Definition decoded_text (pending : list (list byte)) : string :=
  String.concat "" (deltas new_TextDecoder pending) +:+
  decode_end (decoder_after new_TextDecoder pending).

Definition is_prefix (s t : string) : Prop := exists rest, t = s +:+ rest.

(** The bot message while it streams and once it is settled. *)
Definition streaming_bot (random_bot aggregate : string) : ChatMessage :=
  {| id := createId "bot" random_bot; role := bot; content := aggregate;
     turnId := None; status := Some streaming; error := None |}.

Definition ready_bot (random_bot finalContent : string)
    (turn : option string) : ChatMessage :=
  {| id := createId "bot" random_bot; role := bot; content := finalContent;
     turnId := turn; status := Some ready; error := None |}.

Definition failed_bot (random_bot err : string) : ChatMessage :=
  {| id := createId "bot" random_bot; role := bot; content := "";
     turnId := None; status := Some error_status; error := Some err |}.

(** The bot message of one send as a function of what the network answers:
    the values it takes while the body streams, and the settled message. *)
Definition reply_course (net : Network) (random_bot prompt : string)
    : list ChatMessage * ChatMessage :=
  match net (generate_request prompt) with
  | Throw e => ([], failed_bot random_bot (message_of e "Unexpected error"))
  | Normal response =>
      if negb (response_ok response) then
        ([], failed_bot random_bot
               ("Unable to generate response (" +:+
                pretty (response_status response) +:+ ")"))
      else
        let turn := response_headers_get response "x-turn-id" in
        if is_json (response_headers_get response "content-type") then
          match response_json response with
          | Normal data =>
              ([], ready_bot random_bot (json_content data)
                     (json_turnId turn data))
          | Throw e =>
              ([], failed_bot random_bot (message_of e "Unexpected error"))
          end
        else
          match response_body response with
          | Some stream =>
              (streaming_bot random_bot <$>
                 accumulators "" (deltas new_TextDecoder (chunks stream)),
               match failure stream with
               | None =>
                   ready_bot random_bot (decoded_text (chunks stream)) turn
               | Some e =>
                   failed_bot random_bot (message_of e "Unexpected error")
               end)
          | None =>
              match response_text response with
              | Normal text => ([], ready_bot random_bot text turn)
              | Throw e =>
                  ([], failed_bot random_bot
                         (message_of e "Unexpected error"))
              end
          end
  end.

(** A generation request that fails: the transport, the status, or a read
    of the body. *)
Inductive generation_fails (net : Network) (prompt : string)
    : Thrown -> Prop :=
| network_failure e :
    net (generate_request prompt) = Throw e ->
    generation_fails net prompt e
| bad_status response :
    net (generate_request prompt) = Normal response ->
    response_ok response = false ->
    generation_fails net prompt
      (JsError ("Unable to generate response (" +:+
                pretty (response_status response) +:+ ")"))
| parse_failure response e :
    net (generate_request prompt) = Normal response ->
    response_ok response = true ->
    is_json (response_headers_get response "content-type") = true ->
    response_json response = Throw e ->
    generation_fails net prompt e
| read_failure response stream e :
    net (generate_request prompt) = Normal response ->
    response_ok response = true ->
    is_json (response_headers_get response "content-type") = false ->
    response_body response = Some stream ->
    failure stream = Some e ->
    generation_fails net prompt e
| text_failure response e :
    net (generate_request prompt) = Normal response ->
    response_ok response = true ->
    is_json (response_headers_get response "content-type") = false ->
    response_body response = None ->
    response_text response = Throw e ->
    generation_fails net prompt e.

(** The outcome of one save as a function of what the network answers: the
    text to store, or what the [try] block throws. *)
Definition edit_outcome (net : Network) (turn : option string)
    (content : string) : Completion string :=
  match net (save_edit_request turn content) with
  | Throw e => Throw e
  | Normal response =>
      if negb (response_ok response) then
        Throw (JsError ("Unable to save edit (" +:+
                        pretty (response_status response) +:+ ")"))
      else if is_json (response_headers_get response "content-type") then
        match response_json response with
        | Normal data =>
            match optional_get data "response" with
            | Some (JString s) => Normal s
            | _ => Normal content
            end
        | Throw _ => Normal content
        end
      else Normal content
  end.

(** A save request that fails: the transport or the status. *)
Inductive save_fails (net : Network) (request : Request) : Thrown -> Prop :=
| save_network_failure e :
    net request = Throw e -> save_fails net request e
| save_bad_status response :
    net request = Normal response ->
    response_ok response = false ->
    save_fails net request
      (JsError ("Unable to save edit (" +:+
                pretty (response_status response) +:+ ")")).

End callbacks.

Arguments Normal {Num A} a.
Arguments Throw {Num A} e.

(** ** Two instances of the platform *)

(** The integers that JavaScript prints digit for digit (magnitude up to
    [2^53]); above that JavaScript prints the shortest digits that read back
    as the same double, which this instance does not follow. *)
#[export] Instance integer_number : JsNumber := {|
  number := Z;
  number_ToBoolean n := negb (n =? 0)%Z;
  number_ToString n := pretty n;
  number_isFinite _ := true
|}.

(** The UTF-8 decoder of the WHATWG Encoding Standard, as [new TextDecoder()]
    makes it (replacement on error, byte order mark removed).  Text is kept as
    its UTF-8 bytes. *)
Module Utf8.
#[local] Open Scope N_scope.

Record state := {
  code_point : N;
  bytes_seen : N;
  bytes_needed : N;
  lower_boundary : N;
  upper_boundary : N;
  BOM_seen : bool
}.

Definition fresh (bom : bool) : state :=
  {| code_point := 0; bytes_seen := 0; bytes_needed := 0;
     lower_boundary := 0x80; upper_boundary := 0xBF; BOM_seen := bom |}.

Definition in_range (lo hi b : N) : bool := ((lo <=? b) && (b <=? hi))%N.

Definition expect (bom : bool) (cp needed lo hi : N) : state :=
  {| code_point := cp; bytes_seen := 0; bytes_needed := needed;
     lower_boundary := lo; upper_boundary := hi; BOM_seen := bom |}.

(** A byte read while no sequence is open. *)
Definition lead (bom : bool) (b : N) : list N * state :=
  if in_range 0x00 0x7F b then ([b], fresh bom)
  else if in_range 0xC2 0xDF b then
    ([], expect bom (N.land b 0x1F) 1 0x80 0xBF)
  else if in_range 0xE0 0xEF b then
    ([], expect bom (N.land b 0xF) 2
           (if (b =? 0xE0)%N then 0xA0 else 0x80)
           (if (b =? 0xED)%N then 0x9F else 0xBF))
  else if in_range 0xF0 0xF4 b then
    ([], expect bom (N.land b 0x7) 3
           (if (b =? 0xF0)%N then 0x90 else 0x80)
           (if (b =? 0xF4)%N then 0x8F else 0xBF))
  else ([0xFFFD], fresh bom).

(** The handler: the code points emitted for one byte, and the next state. *)
Definition handle (st : state) (b : N) : list N * state :=
  if (bytes_needed st =? 0)%N then lead (BOM_seen st) b
  else if negb (in_range (lower_boundary st) (upper_boundary st) b) then
    let '(out, st') := lead (BOM_seen st) b in (0xFFFD :: out, st')
  else
    let cp := N.lor (N.shiftl (code_point st) 6) (N.land b 0x3F) in
    let seen := (bytes_seen st + 1)%N in
    if (seen =? bytes_needed st)%N then ([cp], fresh (BOM_seen st))
    else
      ([], {| code_point := cp; bytes_seen := seen;
              bytes_needed := bytes_needed st;
              lower_boundary := 0x80; upper_boundary := 0xBF;
              BOM_seen := BOM_seen st |}).

Fixpoint run (st : state) (input : list N) : list N * state :=
  match input with
  | [] => ([], st)
  | b :: rest =>
      let '(out, st') := handle st b in
      let '(more, st'') := run st' rest in
      (out ++ more, st'')
  end.

(** Serializing the output drops one leading U+FEFF per decoder. *)
Definition serialize (st : state) (out : list N) : list N * state :=
  if BOM_seen st then (out, st)
  else
    match out with
    | [] => ([], st)
    | cp :: rest =>
        (if (cp =? 0xFEFF)%N then rest else out,
         {| code_point := code_point st; bytes_seen := bytes_seen st;
            bytes_needed := bytes_needed st;
            lower_boundary := lower_boundary st;
            upper_boundary := upper_boundary st; BOM_seen := true |})
    end.

Definition encode (cp : N) : list N :=
  if (cp <? 0x80)%N then [cp]
  else if (cp <? 0x800)%N then
    [N.lor 0xC0 (N.shiftr cp 6); N.lor 0x80 (N.land cp 0x3F)]
  else if (cp <? 0x10000)%N then
    [N.lor 0xE0 (N.shiftr cp 12);
     N.lor 0x80 (N.land (N.shiftr cp 6) 0x3F);
     N.lor 0x80 (N.land cp 0x3F)]
  else
    [N.lor 0xF0 (N.shiftr cp 18);
     N.lor 0x80 (N.land (N.shiftr cp 12) 0x3F);
     N.lor 0x80 (N.land (N.shiftr cp 6) 0x3F);
     N.lor 0x80 (N.land cp 0x3F)].

Definition text_of (cps : list N) : string :=
  foldr (fun b s => String (ascii_of_N b) s) EmptyString
        (concat (map encode cps)).

Definition decode_stream (st : state) (value : list byte) : string * state :=
  let '(out, st') := run st (map Byte.to_N value) in
  let '(out', st'') := serialize st' out in
  (text_of out', st'').

Definition decode_end (st : state) : string :=
  let out := if (bytes_needed st =? 0)%N then [] else [0xFFFD%N] in
  text_of (fst (serialize st out)).
End Utf8.

#[export] Instance utf8_decoder : TextDecoder := {|
  decoder := Utf8.state;
  new_TextDecoder := Utf8.fresh false;
  decode_stream := Utf8.decode_stream;
  decode_end := Utf8.decode_end
|}.

(** The bytes of a text, as the transport delivers them. *)
Definition bytes_of (s : string) : list byte :=
  String.list_byte_of_string s.

(** ** Scenarios

    Concrete backends and stores, on the integers and the UTF-8 decoder. *)

Fixpoint header_lookup (entries : list (string * string)) (name : string)
    : option string :=
  match entries with
  | [] => None
  | (n, v) :: rest =>
      if decide (n = name) then Some v else header_lookup rest name
  end.

(** A backend that gives the same answer to every request. *)
Definition answer (response : Response) : Network :=
  fun _ => Normal response.

Definition not_json : Completion JsValue :=
  Throw (JsError "Unexpected token in JSON").

Definition empty_app : AppState :=
  {| messages := []; isGenerating := false; errorMessage := None |}.

(** A streamed reply, delivered as the chunks [He] and [llo]. *)
Definition hello_chunks : ReadableStream :=
  {| chunks := [bytes_of "He"; bytes_of "llo"]; failure := None |}.

Definition hello_stream : Response :=
  {| response_status := 200;
     response_headers_get := header_lookup [("content-type", "text/plain")];
     response_body := Some hello_chunks;
     response_json := not_json;
     response_text := Normal "Hello" |}.

(** The same text from a response without a body stream. *)
Definition hello_text : Response :=
  {| response_status := 200;
     response_headers_get := header_lookup [("content-type", "text/plain")];
     response_body := None;
     response_json := not_json;
     response_text := Normal "Hello" |}.

(** [{ "response": "hi", "turn_id": "t1" }] *)
Definition hi_data : JsValue :=
  JObject [("response", JString "hi"); ("turn_id", JString "t1")].

Definition json_reply (entries : list (string * string)) (data : JsValue)
    : Response :=
  {| response_status := 200;
     response_headers_get :=
       header_lookup (("content-type", "application/json") :: entries);
     response_body :=
       Some {| chunks := [bytes_of (JSON_stringify data)];
               failure := None |};
     response_json := Normal data;
     response_text := Normal (JSON_stringify data) |}.

Definition hi_json : Response := json_reply [] hi_data.

(** The same body under a turn-id header whose value is empty. *)
Definition hi_json_empty_header : Response :=
  json_reply [("x-turn-id", "")] hi_data.

(** The same body under a turn-id header [h9]. *)
Definition hi_json_with_header : Response :=
  json_reply [("x-turn-id", "h9")] hi_data.

Definition refusal (code : N) : Response :=
  {| response_status := code;
     response_headers_get := header_lookup [("content-type", "text/plain")];
     response_body :=
       Some {| chunks := [bytes_of "no"]; failure := None |};
     response_json := not_json;
     response_text := Normal "no" |}.

(** A store with one exchange whose reply can be edited, and one whose reply
    came without a turn id. *)
Definition asked : ChatMessage :=
  {| id := "user-1"; role := user; content := "Hi"; turnId := None;
     status := Some ready; error := None |}.

Definition replied : ChatMessage :=
  {| id := "bot-1"; role := bot; content := "Hello"; turnId := Some "t1";
     status := Some ready; error := None |}.

Definition streamed : ChatMessage :=
  {| id := "bot-2"; role := bot; content := "Bye"; turnId := None;
     status := Some ready; error := None |}.

Definition talk : list ChatMessage := [asked; replied; streamed].

Definition talking : World :=
  start {| messages := talk; isGenerating := false; errorMessage := None |}.

(** ** The components around [App]

    [MessageInput] and [ChatHistory]: their local state, their handlers, and
    the way [App] wires them to [handleSend] and [handleSaveEdit]. *)

(** The white space and line terminators of ECMA-262, as UTF-8 bytes: the
    characters that [String.prototype.trim] removes. *)
Definition white_space : list (list ascii) :=
  map (map ascii_of_N)
    [[0x09]; [0x0A]; [0x0B]; [0x0C]; [0x0D]; [0x20];
     [0xC2; 0xA0];
     [0xE1; 0x9A; 0x80];
     [0xE2; 0x80; 0x80]; [0xE2; 0x80; 0x81]; [0xE2; 0x80; 0x82];
     [0xE2; 0x80; 0x83]; [0xE2; 0x80; 0x84]; [0xE2; 0x80; 0x85];
     [0xE2; 0x80; 0x86]; [0xE2; 0x80; 0x87]; [0xE2; 0x80; 0x88];
     [0xE2; 0x80; 0x89]; [0xE2; 0x80; 0x8A];
     [0xE2; 0x80; 0xA8]; [0xE2; 0x80; 0xA9]; [0xE2; 0x80; 0xAF];
     [0xE2; 0x81; 0x9F];
     [0xE3; 0x80; 0x80];
     [0xEF; 0xBB; 0xBF]]%N.

Fixpoint strip_prefix (pattern text : list ascii) : option (list ascii) :=
  match pattern with
  | [] => Some text
  | a :: pattern' =>
      match text with
      | [] => None
      | b :: text' =>
          if decide (a = b) then strip_prefix pattern' text' else None
      end
  end.

Fixpoint strip_any (patterns : list (list ascii)) (text : list ascii)
    : option (list ascii) :=
  match patterns with
  | [] => None
  | pattern :: others =>
      match strip_prefix pattern text with
      | Some rest => Some rest
      | None => strip_any others text
      end
  end.

(** Strips leading patterns for as long as one matches; every match takes at
    least one byte, so [fuel] the length of the text is enough. *)
Fixpoint strip_all (fuel : nat) (patterns : list (list ascii))
    (text : list ascii) : list ascii :=
  match fuel with
  | O => text
  | S fuel' =>
      match strip_any patterns text with
      | Some rest => strip_all fuel' patterns rest
      | None => text
      end
  end.

Definition trimStart (text : list ascii) : list ascii :=
  strip_all (length text) white_space text.

Definition trimEnd (text : list ascii) : list ascii :=
  rev (strip_all (length text) (map (@rev ascii) white_space) (rev text)).

(** [s.trim()] *)
Definition trim (s : string) : string :=
  String.string_of_list_ascii
    (trimEnd (trimStart (String.list_ascii_of_string s))).

(** [!s] for a string *)
Definition is_empty (s : string) : bool := bool_decide (s = "").

(** The stores that a run of patches on one id installs, one after the
    other, and the store it ends with. *)
Fixpoint patch_chain (i : string) (store : list ChatMessage)
    (patches : list Changes) : list (list ChatMessage) :=
  match patches with
  | [] => []
  | p :: rest =>
      markMessage_update i p store ::
      patch_chain i (markMessage_update i p store) rest
  end.

Definition chain_end (i : string) (store : list ChatMessage)
    (patches : list Changes) : list ChatMessage :=
  foldl (fun current p => markMessage_update i p current) store patches.

(** A patch that rewrites neither [id] nor [role]. *)
Definition keeps_identity (p : Changes) : Prop :=
  p_id p = None /\ p_role p = None.

(** [message.role === 'bot'] and [message.status === 'saving-edit'] *)
Definition is_bot (r : Role) : bool :=
  match r with bot => true | user => false end.

Definition is_saving (s : option Status) : bool :=
  match s with Some saving_edit => true | _ => false end.

(** The controls of [message-actions] (ChatHistory.tsx:63-102). *)
Inductive Control :=
| CancelButton (disabled : bool)
| SaveButton (disabled : bool)
| EditButton (disabled : bool)
| SavedBadge.

Section components.
Context {Num : JsNumber} {Dec : TextDecoder}.

(** The state of [MessageInput] and of [ChatHistory].  [savedIndicator] is
    an object used as a map from message ids; the ids that [createId] makes
    name no property of [Object.prototype], so a missing key reads as
    [undefined]. *)
Record InputState := {
  prompt : string;
  isSubmitting : bool
}.

Record HistoryState := {
  editingId : option string;
  draft : string;
  savedIndicator : gmap string bool;
  localError : option string
}.

(** The page: the state of [App] with its effects, and of its two children. *)
Record Page := {
  world : World;
  input : InputState;
  chat : HistoryState
}.

Definition UI (A : Type) : Type := Page -> Completion A * Page.

#[local] Instance UI_ret : MRet UI := fun A a p => (Normal a, p).

#[local] Instance UI_bind : MBind UI := fun A B k m p =>
  match m p with
  | (Normal a, p') => k a p'
  | (Throw e, p') => (Throw e, p')
  end.

(** A callback received as a prop runs on the state of [App]. *)
Definition lift {A} (callback : Async A) : UI A :=
  fun p =>
    match callback (world p) with
    | (outcome, w') =>
        (outcome, {| world := w'; input := input p; chat := chat p |})
    end.

Definition ui_try_catch {A} (block : UI A) (handler : Thrown -> UI A)
    : UI A :=
  fun p =>
    match block p with
    | (Normal a, p') => (Normal a, p')
    | (Throw e, p') => handler e p'
    end.

Definition ui_try_finally {A} (block : UI A) (finalizer : UI unit) : UI A :=
  fun p =>
    match block p with
    | (outcome, p') =>
        match finalizer p' with
        | (Normal _, p'') => (outcome, p'')
        | (Throw e, p'') => (Throw e, p'')
        end
    end.

Definition with_input (next : InputState) (p : Page) : Page :=
  {| world := world p; input := next; chat := chat p |}.

Definition with_chat (next : HistoryState) (p : Page) : Page :=
  {| world := world p; input := input p; chat := next |}.

Definition setPrompt (value : string) : UI unit :=
  fun p =>
    (Normal tt,
     with_input {| prompt := value;
                   isSubmitting := isSubmitting (input p) |} p).

Definition setIsSubmitting (value : bool) : UI unit :=
  fun p =>
    (Normal tt,
     with_input {| prompt := prompt (input p); isSubmitting := value |} p).

Definition setEditingId (value : option string) : UI unit :=
  fun p =>
    (Normal tt,
     with_chat {| editingId := value; draft := draft (chat p);
                  savedIndicator := savedIndicator (chat p);
                  localError := localError (chat p) |} p).

Definition setDraft (value : string) : UI unit :=
  fun p =>
    (Normal tt,
     with_chat {| editingId := editingId (chat p); draft := value;
                  savedIndicator := savedIndicator (chat p);
                  localError := localError (chat p) |} p).

Definition setLocalError (value : option string) : UI unit :=
  fun p =>
    (Normal tt,
     with_chat {| editingId := editingId (chat p); draft := draft (chat p);
                  savedIndicator := savedIndicator (chat p);
                  localError := value |} p).

Definition setSavedIndicator (update : gmap string bool -> gmap string bool)
    : UI unit :=
  fun p =>
    (Normal tt,
     with_chat {| editingId := editingId (chat p); draft := draft (chat p);
                  savedIndicator := update (savedIndicator (chat p));
                  localError := localError (chat p) |} p).

(** [MessageInput]'s [handleSubmit]; [prompt] and [isSubmitting] are read as
    the handler finds them when the form is submitted. *)
Definition handleSubmit (onSend : string -> Async unit)
    (onClearError : Async unit) : UI unit :=
  fun p =>
    (if is_empty (trim (prompt (input p))) || isSubmitting (input p) then
       mret tt
     else
       lift onClearError;;
       setIsSubmitting true;;
       ui_try_finally
         (lift (onSend (trim (prompt (input p))));;
          setPrompt "")
         (setIsSubmitting false)) p.

(** ChatHistory.tsx:17 *)
Definition startEditing (message : ChatMessage) : UI unit :=
  setEditingId (Some (id message));;
  setDraft (content message);;
  setLocalError None;;
  setSavedIndicator (fun prev => <[id message := false]> prev).

(** ChatHistory.tsx:24 *)
Definition cancelEditing : UI unit :=
  setEditingId None;;
  setDraft "";;
  setLocalError None.

(** ChatHistory.tsx:30; [draft] is read as the handler finds it when Save is
    clicked. *)
Definition handleSave (onSaveEdit : string -> string -> Async unit)
    (message : ChatMessage) : UI unit :=
  fun p =>
    (if is_empty (trim (draft (chat p))) then
       setLocalError (Some "Response cannot be empty.")
     else
       ui_try_catch
         (setLocalError None;;
          lift (onSaveEdit (id message) (trim (draft (chat p))));;
          setEditingId None;;
          setDraft "";;
          setSavedIndicator (fun prev => <[id message := true]> prev))
         (fun error =>
            let err := message_of error "Unable to save edit." in
            setLocalError (Some err))) p.

(** ChatHistory.tsx:63-102: the controls shown in the header of a message. *)
Definition message_actions (st : HistoryState) (isBusy : bool)
    (message : ChatMessage) : list Control :=
  let isEditing := bool_decide (editingId st = Some (id message)) in
  let saving := is_saving (status message) in
  if is_bot (role message) && negb (no_turnId (turnId message)) then
    if isEditing then [CancelButton saving; SaveButton saving]
    else
      EditButton isBusy ::
      (if bool_decide (savedIndicator st !! id message = Some true)
       then [SavedBadge] else [])
  else [].

(** App.tsx:155-165: the props that [App] hands to its children.
    [handleSaveEdit] closes over the [messages] of the render that the
    children show. *)
Definition submit_prompt (net : Network) (random_user random_bot : string)
    : UI unit :=
  handleSubmit (handleSend net random_user random_bot) (setErrorMessage None).

Definition save_draft (net : Network) (message : ChatMessage) : UI unit :=
  fun p =>
    handleSave (handleSaveEdit net (messages (app (world p)))) message p.

Definition actions_shown (p : Page) (message : ChatMessage) : list Control :=
  message_actions (chat p) (isGenerating (app (world p))) message.

End components.

(** The UTF-8 decoder run on all the bytes of a stream at once: the code
    points still owed at the end, the output with one leading U+FEFF
    dropped, and the text. *)
Definition utf8_set_bom (seen : bool) (st : Utf8.state) : Utf8.state :=
  {| Utf8.code_point := Utf8.code_point st;
     Utf8.bytes_seen := Utf8.bytes_seen st;
     Utf8.bytes_needed := Utf8.bytes_needed st;
     Utf8.lower_boundary := Utf8.lower_boundary st;
     Utf8.upper_boundary := Utf8.upper_boundary st;
     Utf8.BOM_seen := seen |}.

Definition utf8_flush (st : Utf8.state) : list N :=
  if (Utf8.bytes_needed st =? 0)%N then [] else [0xFFFD%N].

Definition utf8_strip (seen : bool) (out : list N) : list N :=
  if seen then out
  else
    match out with
    | [] => []
    | cp :: rest => if (cp =? 0xFEFF)%N then rest else out
    end.

Definition utf8_whole (st : Utf8.state) (input : list N) : string :=
  let '(out, st') := Utf8.run st input in
  Utf8.text_of (utf8_strip (Utf8.BOM_seen st) (out ++ utf8_flush st')).

(** A page whose store is [talk], with nothing typed and nothing edited. *)
Definition quiet : HistoryState :=
  {| editingId := None; draft := ""; savedIndicator := ∅;
     localError := None |}.

Definition typed (text : string) : Page :=
  {| world := talking;
     input := {| prompt := text; isSubmitting := false |};
     chat := quiet |}.

Definition editing (message : ChatMessage) (text : string) : Page :=
  {| world := talking;
     input := {| prompt := ""; isSubmitting := false |};
     chat := {| editingId := Some (id message); draft := text;
                savedIndicator := ∅; localError := None |} |}.

(** A save reply in which the backend returns its own version of the text,
    and one that claims JSON but does not parse. *)
Definition tidied_json : Response :=
  json_reply [] (JObject [("response", JString "Hello.")]).

Definition broken_json : Response :=
  {| response_status := 200;
     response_headers_get :=
       header_lookup [("content-type", "application/json")];
     response_body := None;
     response_json := not_json;
     response_text := Normal "{" |}.

(** A stream that breaks off after its two chunks. *)
Definition hello_cut_off : Response :=
  {| response_status := 200;
     response_headers_get := header_lookup [("content-type", "text/plain")];
     response_body :=
       Some {| chunks := [bytes_of "He"; bytes_of "llo"];
               failure := Some (JsError "network error") |};
     response_json := not_json;
     response_text := Normal "Hello" |}.

(** The chunks [He] and [llo] once more, closing normally, under a turn-id
    header [h9]. *)
Definition hello_stream_h9 : Response :=
  {| response_status := 200;
     response_headers_get :=
       header_lookup [("content-type", "text/plain"); ("x-turn-id", "h9")];
     response_body := Some hello_chunks;
     response_json := not_json;
     response_text := Normal "Hello" |}.

(** A callback that throws instead of sending or saving. *)
Definition offline : Async unit := throw (JsError "offline").

(** ** The store: frame and shape lemmas *)

Section store.
Implicit Types (store prev : list ChatMessage) (m : ChatMessage).
Implicit Types (ops : list StoreOp) (i : string) (k : nat).

Lemma update_lookup i changes prev k :
  markMessage_update i changes prev !! k =
  (fun m => if decide (id m = i) then spread m changes else m)
    <$> prev !! k.
Proof. unfold markMessage_update. apply list_lookup_fmap. Qed.

Lemma update_length i changes prev :
  length (markMessage_update i changes prev) = length prev.
Proof. unfold markMessage_update. apply length_fmap. Qed.

Lemma update_other i changes prev k m :
  prev !! k = Some m -> id m <> i ->
  markMessage_update i changes prev !! k = Some m.
Proof.
  intros Hk Hne. rewrite update_lookup, Hk. simpl.
  destruct (decide (id m = i)); [contradiction | reflexivity].
Qed.

Lemma update_hit i changes prev k m :
  prev !! k = Some m -> id m = i ->
  markMessage_update i changes prev !! k = Some (spread m changes).
Proof.
  intros Hk He. rewrite update_lookup, Hk. simpl.
  destruct (decide (id m = i)); [reflexivity | contradiction].
Qed.

Lemma update_absent i changes prev :
  (forall m, m ∈ prev -> id m <> i) ->
  markMessage_update i changes prev = prev.
Proof.
  intros Habs. induction prev as [|m prev IH]; [reflexivity|].
  unfold markMessage_update in *. cbn [fmap list_fmap].
  destruct (decide (id m = i)) as [He|_].
  - exfalso. apply (Habs m); [left | exact He].
  - f_equal. apply IH. intros m' Hin. apply Habs. right. exact Hin.
Qed.

Lemma apply_op_frame op store k m :
  store !! k = Some m -> id m ∉ patch_targets [op] ->
  apply_op store op !! k = Some m.
Proof.
  intros Hk Hnot. destruct op as [new|i changes]; simpl in *.
  - unfold append. apply lookup_app_l_Some. exact Hk.
  - apply update_other; [exact Hk|].
    intros <-. apply Hnot. left.
Qed.

Lemma run_ops_frame ops store k m :
  store !! k = Some m -> id m ∉ patch_targets ops ->
  run_ops ops store !! k = Some m.
Proof.
  revert store. induction ops as [|op ops IH]; intros store Hk Hnot.
  - exact Hk.
  - simpl. apply IH.
    + apply apply_op_frame; [exact Hk|].
      destruct op; simpl in *; [apply not_elem_of_nil|].
      intros Hin. apply Hnot. apply list_elem_of_singleton in Hin.
      subst. left.
    + destruct op; simpl in *; [exact Hnot|].
      intros Hin. apply Hnot. right. exact Hin.
Qed.

Lemma run_ops_app ops1 ops2 store :
  run_ops (ops1 ++ ops2) store = run_ops ops2 (run_ops ops1 store).
Proof. unfold run_ops. apply foldl_app. Qed.

End store.

(** C9.  Whatever appends and patches run, a message whose id no patch aims
    at is still in its place and equal to what it was, be it in the store
    from the start or appended on the way; and a patch whose id no message
    carries returns the store as it was. *)
Theorem untargeted_messages_unchanged :
  (forall (before after : list StoreOp) (store : list ChatMessage)
          (k : nat) (m : ChatMessage),
      run_ops before store !! k = Some m ->
      id m ∉ patch_targets after ->
      run_ops (before ++ after) store !! k = Some m) /\
  (forall (i : string) (changes : Changes) (store : list ChatMessage),
      (forall m, m ∈ store -> id m <> i) ->
      apply_op store (Patch i changes) = store).
Proof.
  split.
  - intros before after store k m Hk Hnot.
    rewrite run_ops_app. apply run_ops_frame; assumption.
  - intros i changes store Habs. simpl. apply update_absent. exact Habs.
Qed.

(** ** Text *)

Lemma append_nil_r (s : string) : s +:+ "" = s.
Proof.
  induction s as [|c s IH]; [reflexivity|].
  change (String c (s +:+ "") = String c s). by rewrite IH.
Qed.

Lemma append_assoc (s t u : string) : (s +:+ t) +:+ u = s +:+ (t +:+ u).
Proof.
  induction s as [|c s IH]; [reflexivity|].
  change (String c ((s +:+ t) +:+ u) = String c (s +:+ (t +:+ u))).
  by rewrite IH.
Qed.

Lemma concat_cons (x : string) (l : list string) :
  String.concat "" (x :: l) = x +:+ String.concat "" l.
Proof.
  destruct l; cbn [String.concat]; [symmetry; apply append_nil_r | reflexivity].
Qed.

Lemma prefix_append (s t : string) : String.prefix s (s +:+ t) = true.
Proof.
  induction s as [|c s IH]; simpl; [by destruct t|].
  destruct (Ascii.ascii_dec c c); [exact IH | contradiction].
Qed.

Lemma includes_at_start (s sub : string) :
  String.prefix sub s = true -> includes s sub = true.
Proof. intros H. destruct s; cbn [includes]; rewrite H; reflexivity. Qed.

Lemma includes_middle (before s after : string) :
  includes (before +:+ s +:+ after) s = true.
Proof.
  induction before as [|c before IH].
  - change ("" +:+ s +:+ after) with (s +:+ after).
    apply includes_at_start, prefix_append.
  - change (String c before +:+ s +:+ after)
      with (String c (before +:+ s +:+ after)).
    cbn [includes]. rewrite IH. apply orb_true_r.
Qed.

Section runs.
Context {Num : JsNumber} {Dec : TextDecoder}.
Implicit Types (w : World) (net : Network) (k : nat).

Lemma accumulators_accumulated (aggregate : string) (parts : list string) :
  accumulators aggregate parts =
  (fun j => aggregate +:+ accumulated parts j) <$> seq 1 (length parts).
Proof.
  revert aggregate. induction parts as [|text rest IH]; intros aggregate.
  - reflexivity.
  - cbn [accumulators length seq fmap list_fmap].
    apply (f_equal2 cons); [reflexivity|].
    rewrite IH, <- (fmap_S_seq 1), <- list_fmap_compose.
    apply list_fmap_ext. intros _ j _. simpl.
    unfold accumulated. cbn [take]. rewrite concat_cons.
    apply append_assoc.
Qed.

Lemma accumulators_prefix (aggregate : string) (parts : list string) x :
  x ∈ accumulators aggregate parts ->
  is_prefix x (aggregate +:+ String.concat "" parts).
Proof.
  revert aggregate. induction parts as [|text rest IH]; intros aggregate Hin.
  - inversion Hin.
  - cbn [accumulators] in Hin. rewrite concat_cons, <- append_assoc.
    apply elem_of_cons in Hin as [->|Hin].
    + eexists. reflexivity.
    + apply IH. exact Hin.
Qed.

Lemma appended_bot (prev : list ChatMessage) (u b : ChatMessage) :
  append [u; b] prev !! S (length prev) = Some b.
Proof.
  unfold append. rewrite lookup_app_r by lia.
  replace (S (length prev) - length prev) with 1 by lia. reflexivity.
Qed.

Lemma world_eta w :
  {| app := {| messages := messages (app w);
               isGenerating := isGenerating (app w);
               errorMessage := errorMessage (app w) |};
     history := history w ++ [];
     requests := requests w;
     warnings := warnings w |} = w.
Proof. destruct w as [[ms g e] h r u]. simpl. by rewrite app_nil_r. Qed.

(** The read loop: what it returns, the stores it installs and the message
    it leaves at the position of the bot message. *)
Lemma read_all_run (rb : string) (failure : option Thrown) k :
  forall (pending : list (list byte)) (dec : decoder) (aggregate : string)
         w (c : string),
    messages (app w) !! k = Some (streaming_bot rb c) ->
    exists (stores : list (list ChatMessage)) (ms : list ChatMessage)
           (c' : string),
      read_all (createId "bot" rb) pending failure dec aggregate w =
        (match failure with
         | None =>
             Normal (decoder_after dec pending,
                     aggregate +:+ String.concat "" (deltas dec pending))
         | Some e => Throw e
         end,
         {| app := {| messages := ms;
                      isGenerating := isGenerating (app w);
                      errorMessage := errorMessage (app w) |};
            history := history w ++ stores;
            requests := requests w;
            warnings := warnings w |}) /\
      seen_at k stores =
        Some <$> (streaming_bot rb <$>
                    accumulators aggregate (deltas dec pending)) /\
      ms !! k = Some (streaming_bot rb c').
Proof.
  induction pending as [|value rest IH]; intros dec aggregate w c Hk.
  - exists [], (messages (app w)), c. split; [|split]; [|reflexivity|exact Hk].
    cbn [read_all deltas decoder_after String.concat].
    rewrite world_eta, append_nil_r. by destruct failure.
  - cbn [read_all deltas decoder_after].
    destruct (decode_stream dec value) as [text dec'] eqn:Hdec.
    cbv [mbind Async_bind markMessage setMessages]. cbn [snd].
    set (next := markMessage_update (createId "bot" rb)
                   (streaming_patch (aggregate +:+ text)) (messages (app w))).
    assert (Hnext : next !! k = Some (streaming_bot rb (aggregate +:+ text))).
    { unfold next. erewrite update_hit; [|exact Hk|reflexivity]. reflexivity. }
    destruct (IH dec' (aggregate +:+ text) (with_messages next w)
                 (aggregate +:+ text) Hnext)
      as (stores & ms & c' & Hrun & Hseen & Hms).
    exists (next :: stores), ms, c'. split; [|split]; [| |exact Hms].
    + rewrite Hrun. cbn [with_messages app history requests warnings
                         isGenerating errorMessage].
      rewrite <- app_assoc, concat_cons, append_assoc. reflexivity.
    + cbn [accumulators]. unfold seen_at in *. cbn [fmap list_fmap].
      rewrite Hnext. f_equal. exact Hseen.
Qed.

(** The last patch of a send, seen from the position of the bot message. *)
Lemma settling_patch w w2 (rb c' : string) (first : list ChatMessage)
    (stores : list (list ChatMessage)) (mids : list ChatMessage)
    (p : Changes) (settled : ChatMessage) :
  let k := bot_slot w in
  let last := markMessage_update (createId "bot" rb) p (messages (app w2)) in
  history w2 = (history w ++ [first]) ++ stores ->
  first !! k = Some (botMessage rb) ->
  seen_at k stores = Some <$> mids ->
  messages (app w2) !! k = Some (streaming_bot rb c') ->
  spread (streaming_bot rb c') p = settled ->
  seen_at k (installed w (with_messages last w2)) =
    Some <$> (botMessage rb :: mids ++ [settled]) /\
  last !! k = Some settled.
Proof.
  intros k last Hhist Hfirst Hseen Hk Hspread.
  assert (Hlast : last !! k = Some settled).
  { unfold last. erewrite update_hit; [|exact Hk|reflexivity].
    by rewrite Hspread. }
  split; [|exact Hlast].
  unfold installed, seen_at in *. cbn [with_messages history].
  rewrite Hhist, <- !app_assoc, drop_app_length.
  rewrite !fmap_app, Hseen. cbn [fmap list_fmap app].
  by rewrite Hfirst, Hlast, fmap_app.
Qed.

Ltac settle H :=
  eexists; split; [reflexivity|]; cbn [fst snd];
  split; [exact (proj1 (H _ _ eq_refl))|];
  split; [exact (proj2 (H _ _ eq_refl))|];
  repeat split.

(** One send, start to end: [handleSend] never throws, and the bot message
    goes through the course that [reply_course] computes. *)
Lemma handleSend_course net (ru rb prompt : string) w :
  exists w',
    handleSend net ru rb prompt w = (Normal tt, w') /\
    seen_at (bot_slot w) (installed w w') =
      Some <$> (botMessage rb :: (reply_course net rb prompt).1 ++
                [(reply_course net rb prompt).2]) /\
    messages (app w') !! bot_slot w = Some (reply_course net rb prompt).2 /\
    errorMessage (app w') = error (reply_course net rb prompt).2 /\
    isGenerating (app w') = false /\
    requests w' = requests w ++ [generate_request prompt].
Proof.
  unfold reply_course.
  cbv [handleSend generate mbind Async_bind try_finally try_catch setMessages
       setIsGenerating setErrorMessage fetch markMessage throw].
  set (first := append [userMessage ru prompt; botMessage rb]
                  (messages (app w))).
  set (w1 := with_request _ _).
  assert (Hfirst : first !! bot_slot w = Some (botMessage rb))
    by apply appended_bot.
  assert (Hw1 : messages (app w1) !! bot_slot w = Some (streaming_bot rb ""))
    by exact Hfirst.
  assert (Hh1 : history w1 = (history w ++ [first]) ++ [])
    by (symmetry; apply app_nil_r).
  pose proof (fun p settled =>
    settling_patch w w1 rb "" first [] [] p settled Hh1 Hfirst eq_refl Hw1)
    as Hplain.
  destruct (net (generate_request prompt)) as [response|e] eqn:Hnet.
  2: { settle Hplain. }
  destruct (response_ok response) eqn:Hok; cbn [negb].
  2: { settle Hplain. }
  unfold resolve.
  destruct (is_json (response_headers_get response "content-type")).
  - cbv [mbind Async_bind await mret Async_ret].
    destruct (response_json response) as [data|e].
    + settle Hplain.
    + settle Hplain.
  - destruct (response_body response) as [stream|].
    + destruct (read_all_run rb (failure stream) (bot_slot w) (chunks stream)
                  new_TextDecoder "" w1 "" Hw1)
        as (stores & ms & c' & Hrun & Hseen & Hms).
      cbv [mbind Async_bind mret Async_ret]. rewrite Hrun.
      set (w2 := {| app := _ |}).
      assert (Hh2 : history w2 = (history w ++ [first]) ++ stores)
        by reflexivity.
      pose proof (fun p settled =>
        settling_patch w w2 rb c' first stores _ p settled Hh2 Hfirst
          Hseen Hms) as Hstream.
      destruct (failure stream) as [e|].
      * settle Hstream.
      * settle Hstream.
    + cbv [mbind Async_bind await mret Async_ret].
      destruct (response_text response) as [text|e].
      * settle Hplain.
      * settle Hplain.
Qed.

Lemma deltas_length (dec : decoder) (pending : list (list byte)) :
  length (deltas dec pending) = length pending.
Proof.
  revert dec. induction pending as [|value rest IH]; intros dec.
  - reflexivity.
  - cbn [deltas]. destruct (decode_stream dec value) as [text dec'].
    cbn [length]. by rewrite IH.
Qed.

Lemma handleSend_settled net (ru rb prompt : string) w :
  messages (app (handleSend net ru rb prompt w).2) !! bot_slot w =
  Some (reply_course net rb prompt).2.
Proof.
  destruct (handleSend_course net ru rb prompt w) as (w' & -> & _ & H & _).
  exact H.
Qed.

Lemma handleSend_seen net (ru rb prompt : string) w :
  seen_at (bot_slot w) (installed w (handleSend net ru rb prompt w).2) =
  Some <$> (botMessage rb :: (reply_course net rb prompt).1 ++
            [(reply_course net rb prompt).2]).
Proof.
  destruct (handleSend_course net ru rb prompt w) as (w' & -> & H & _).
  exact H.
Qed.

Lemma concat_app_text (a b : list string) :
  String.concat "" (a ++ b) = String.concat "" a +:+ String.concat "" b.
Proof.
  induction a as [|x a IH]; [reflexivity|].
  change ((x :: a) ++ b) with (x :: (a ++ b)).
  by rewrite !concat_cons, IH, append_assoc.
Qed.

(** C1, as amended.  On the stream path, whether the stream closes or breaks
    off, each chunk received writes into the bot message the whole text
    decoded so far, and each such text is a prefix of the text of the
    chunks.  A stream that closes leaves the message [ready] with that text
    as content and the turn id of the header (none without a header), and
    every value a reader of the store found is a prefix of that content; a
    stream that breaks off leaves it in [error] with empty content. *)
Theorem stream_writes_whole_accumulator net (ru rb prompt : string) w
    (response : Response) (stream : ReadableStream) :
  net (generate_request prompt) = Normal response ->
  response_ok response = true ->
  is_json (response_headers_get response "content-type") = false ->
  response_body response = Some stream ->
  let parts := deltas new_TextDecoder (chunks stream) in
  let text := decoded_text (chunks stream) in
  let turn := response_headers_get response "x-turn-id" in
  let w' := (handleSend net ru rb prompt w).2 in
  let course := seen_at (bot_slot w) (installed w w') in
  let settled :=
    match failure stream with
    | None => ready_bot rb text turn
    | Some e => failed_bot rb (message_of e "Unexpected error")
    end in
  course =
    Some <$> (botMessage rb ::
              ((fun j => streaming_bot rb (accumulated parts j)) <$>
                 seq 1 (length (chunks stream))) ++
              [settled]) /\
  (forall j, is_prefix (accumulated parts j) text) /\
  messages (app w') !! bot_slot w = Some settled /\
  (failure stream = None ->
   forall m, Some m ∈ course -> is_prefix (content m) (content settled)).
Proof.
  intros Hnet Hok Hjson Hbody parts text turn w' course settled.
  assert (Hcourse : reply_course net rb prompt =
            (streaming_bot rb <$> accumulators "" parts, settled)).
  { unfold reply_course. rewrite Hnet, Hok, Hjson, Hbody. cbn [negb].
    unfold settled. by destruct (failure stream). }
  assert (Hparts : forall j, is_prefix (accumulated parts j) text).
  { intros j.
    exists (String.concat "" (drop j parts) +:+
            decode_end (decoder_after new_TextDecoder (chunks stream))).
    unfold text, decoded_text, accumulated. fold parts.
    by rewrite <- append_assoc, <- concat_app_text, take_drop. }
  assert (Hseen : course =
            Some <$> (botMessage rb ::
                      ((fun j => streaming_bot rb (accumulated parts j)) <$>
                         seq 1 (length (chunks stream))) ++
                      [settled])).
  { unfold course, w'. rewrite handleSend_seen, Hcourse. cbn [fst snd].
    rewrite accumulators_accumulated, <- list_fmap_compose.
    unfold parts at 2. by rewrite deltas_length. }
  split; [exact Hseen|]. split; [exact Hparts|]. split.
  - unfold w'. by rewrite handleSend_settled, Hcourse.
  - intros Hclose m Hm. rewrite Hseen in Hm.
    unfold settled in *. rewrite Hclose in *. cbn [content ready_bot].
    apply list_elem_of_fmap in Hm as (m' & [= <-] & Hm).
    apply elem_of_cons in Hm as [->|Hm]; [by exists text|].
    apply elem_of_app in Hm as [Hm|Hm].
    + apply list_elem_of_fmap in Hm as (j & -> & _). apply Hparts.
    + apply list_elem_of_singleton in Hm as ->.
      exists "". symmetry. apply append_nil_r.
Qed.

(** X21.  Also when the stream breaks off: what is written while it is read
    is a prefix of the text of the chunks. *)
Lemma streaming_values_are_prefixes net (ru rb prompt : string) w
    (response : Response) (stream : ReadableStream) (m : ChatMessage) :
  net (generate_request prompt) = Normal response ->
  response_ok response = true ->
  is_json (response_headers_get response "content-type") = false ->
  response_body response = Some stream ->
  Some m ∈ seen_at (bot_slot w)
             (installed w (handleSend net ru rb prompt w).2) ->
  status m = Some streaming ->
  is_prefix (content m) (decoded_text (chunks stream)).
Proof.
  intros Hnet Hok Hjson Hbody Hm Hstreaming.
  rewrite handleSend_seen in Hm. unfold reply_course in Hm.
  rewrite Hnet, Hok, Hjson, Hbody in Hm. cbn [negb fst snd] in Hm.
  apply list_elem_of_fmap in Hm as (m' & [= <-] & Hm).
  apply elem_of_cons in Hm as [->|Hm]; [by eexists|].
  apply elem_of_app in Hm as [Hm|Hm].
  - apply list_elem_of_fmap in Hm as (x & -> & Hx).
    apply accumulators_prefix in Hx as [rest Hrest].
    exists (rest +:+ decode_end
              (decoder_after new_TextDecoder (chunks stream))).
    unfold decoded_text.
    change ("" +:+ String.concat "" (deltas new_TextDecoder (chunks stream)))
      with (String.concat "" (deltas new_TextDecoder (chunks stream)))
      in Hrest.
    cbn [content streaming_bot]. by rewrite Hrest, append_assoc.
  - apply list_elem_of_singleton in Hm as ->.
    destruct (failure stream); discriminate.
Qed.

(** C2, as amended.  A successful reply of JSON content type whose body is
    [{ "response": "hi", "turn_id": "t1" }] leaves the bot message of that
    send [ready] with content [hi] and no error; its [turnId] is [t1] when
    the reply carries no turn-id header or an empty one, and the value of
    the header otherwise. *)
Theorem json_reply_settles net (ru rb prompt : string) w
    (response : Response) :
  net (generate_request prompt) = Normal response ->
  response_ok response = true ->
  is_json (response_headers_get response "content-type") = true ->
  response_json response =
    Normal (JObject [("response", JString "hi");
                     ("turn_id", JString "t1")]) ->
  let header := response_headers_get response "x-turn-id" in
  messages (app (handleSend net ru rb prompt w).2) !! bot_slot w =
  Some {| id := createId "bot" rb; role := bot; content := "hi";
          turnId := if no_turnId header then Some "t1" else header;
          status := Some ready; error := None |}.
Proof.
  intros Hnet Hok Hjson Hdata header.
  rewrite handleSend_settled. unfold reply_course.
  rewrite Hnet, Hok, Hjson, Hdata. cbn [negb snd]. unfold json_turnId.
  fold header. by destruct (no_turnId header).
Qed.

(** C3, as amended.  After a successful reply, a turn-id header that is
    present and not empty is the [turnId] of the bot message, whatever the
    body holds; the [turn_id] of a JSON body is used, as [String] renders it,
    only when it is truthy and the header is absent or empty. *)
Theorem header_turn_id_wins_unless_empty net (ru rb prompt : string) w
    (response : Response) (m : ChatMessage) :
  net (generate_request prompt) = Normal response ->
  messages (app (handleSend net ru rb prompt w).2) !! bot_slot w = Some m ->
  status m = Some ready ->
  let header := response_headers_get response "x-turn-id" in
  (forall h, header = Some h -> h <> "" -> turnId m = Some h) /\
  (turnId m <> header ->
   no_turnId header = true /\
   is_json (response_headers_get response "content-type") = true /\
   exists data v,
     response_json response = Normal data /\
     optional_get data "turn_id" = Some v /\
     ToBoolean (Some v) = true /\
     turnId m = Some (ToString v)).
Proof.
  intros Hnet Hm Hready header.
  rewrite handleSend_settled in Hm. injection Hm as <-.
  unfold reply_course in *. rewrite Hnet in *.
  destruct (response_ok response); cbn [negb] in *; [|discriminate].
  fold header in Hready |- *.
  destruct (is_json (response_headers_get response "content-type")).
  - destruct (response_json response) as [data|e]; [|discriminate].
    cbn [snd turnId ready_bot]. unfold json_turnId.
    destruct (no_turnId header) eqn:Hno.
    + destruct (optional_get data "turn_id") as [v|] eqn:Hv.
      * destruct (ToBoolean (Some v)) eqn:Htruthy;
          cbn [andb fmap option_fmap option_map].
        -- split.
           ++ intros h Hh Hne. rewrite Hh in Hno. cbn in Hno.
              apply bool_decide_eq_true in Hno. contradiction.
           ++ intros _. repeat split. exists data, v. repeat split; assumption.
        -- split; [intros h Hh _; exact Hh | intros Hne; contradiction].
      * cbn [ToBoolean andb].
        split; [intros h Hh _; exact Hh | intros Hne; contradiction].
    + cbn [andb]. split; [intros h Hh _; exact Hh | intros Hne; contradiction].
  - destruct (response_body response) as [stream|].
    + destruct (failure stream); [discriminate|].
      cbn [snd turnId ready_bot].
      split; [intros h Hh _; exact Hh | intros Hne; contradiction].
    + destruct (response_text response) as [text|e]; [|discriminate].
      cbn [snd turnId ready_bot].
      split; [intros h Hh _; exact Hh | intros Hne; contradiction].
Qed.

(** The failures listed by [generation_fails] are all there are: a send
    that meets none of them settles [ready]. *)
Lemma send_fails_or_settles net (ru rb prompt : string) w :
  (exists e, generation_fails net prompt e) \/
  status <$> messages (app (handleSend net ru rb prompt w).2) !! bot_slot w =
    Some (Some ready).
Proof.
  rewrite handleSend_settled. unfold reply_course.
  destruct (net (generate_request prompt)) as [response|e] eqn:Hnet.
  2: { left. exists e. by apply network_failure. }
  destruct (response_ok response) eqn:Hok; cbn [negb].
  2: { left. eexists. by eapply bad_status. }
  destruct (is_json (response_headers_get response "content-type")) eqn:Hjson.
  - destruct (response_json response) as [data|e] eqn:Hdata.
    + by right.
    + left. exists e. by eapply parse_failure.
  - destruct (response_body response) as [stream|] eqn:Hbody.
    + destruct (failure stream) as [e|] eqn:Hfail.
      * left. exists e. by eapply read_failure.
      * by right.
    + destruct (response_text response) as [text|e] eqn:Htext.
      * by right.
      * left. exists e. by eapply text_failure.
Qed.

(** C4.  A generation request that fails leaves the bot message in status
    [error] with empty content and the failure's message, and sets the
    page-level error to the same message; after a non-2xx answer that
    message holds the status code in decimal. *)
Theorem failed_generation_marks_error net (ru rb prompt : string) w
    (e : Thrown) :
  generation_fails net prompt e ->
  let w' := (handleSend net ru rb prompt w).2 in
  let err := message_of e "Unexpected error" in
  messages (app w') !! bot_slot w =
    Some {| id := createId "bot" rb; role := bot; content := "";
            turnId := None; status := Some error_status;
            error := Some err |} /\
  errorMessage (app w') = Some err /\
  (forall response,
      net (generate_request prompt) = Normal response ->
      response_ok response = false ->
      err = "Unable to generate response (" +:+
            pretty (response_status response) +:+ ")" /\
      includes err (pretty (response_status response)) = true).
Proof.
  intros Hfails w' err.
  assert (Hcourse : (reply_course net rb prompt).2 = failed_bot rb err).
  { unfold reply_course, err.
    destruct Hfails as [e He|response Hr Hok|response e Hr Hok Hj He
                       |response stream e Hr Hok Hj Hb He
                       |response e Hr Hok Hj Hb He].
    - by rewrite He.
    - by rewrite Hr, Hok.
    - by rewrite Hr, Hok, Hj, He.
    - by rewrite Hr, Hok, Hj, Hb, He.
    - by rewrite Hr, Hok, Hj, Hb, He. }
  destruct (handleSend_course net ru rb prompt w)
    as (w'' & Hrun & _ & Hk & Herr & _).
  subst w'. rewrite Hrun. cbn [snd]. rewrite Hcourse in Hk, Herr.
  split; [exact Hk|]. split; [exact Herr|].
  intros response Hnet Hbad.
  assert (He : e = JsError ("Unable to generate response (" +:+
                            pretty (response_status response) +:+ ")")).
  { destruct Hfails as [e He|response' Hr Hok|response' e Hr Hok Hj He
                       |response' stream e Hr Hok Hj Hb He
                       |response' e Hr Hok Hj Hb He];
      rewrite Hnet in *; try discriminate;
      injection Hr as <-; try congruence. }
  subst err. rewrite He. cbn [message_of]. split; [reflexivity|].
  apply (includes_middle "Unable to generate response (").
Qed.


(** One save of an edit whose target carries a turn id: the two patches,
    the one request, and the completion handed to the caller. *)
Lemma handleSaveEdit_run net (rendered : list ChatMessage)
    (messageId content : string) w :
  let turn := find_message messageId rendered ≫= turnId in
  let outcome := edit_outcome net turn content in
  let saving :=
    markMessage_update messageId saving_patch (messages (app w)) in
  let last :=
    markMessage_update messageId
      match outcome with
      | Normal text => saved_patch text
      | Throw e =>
          save_failed_patch
            (message_of e "Unexpected error while saving edit.")
      end saving in
  no_turnId turn = false ->
  exists w',
    handleSaveEdit net rendered messageId content w =
      (match outcome with Normal _ => Normal tt | Throw e => Throw e end,
       w') /\
    messages (app w') = last /\
    installed w w' = [saving; last] /\
    requests w' = requests w ++ [save_edit_request turn content] /\
    errorMessage (app w') = errorMessage (app w).
Proof.
  intros turn outcome saving last Hturn.
  unfold last, outcome, edit_outcome, handleSaveEdit.
  fold turn. rewrite Hturn.
  cbv [mbind Async_bind try_catch setMessages fetch markMessage throw
       updated_content await mret Async_ret console_warn].
  fold saving.
  assert (Hinst : forall next x,
    installed w (with_messages next
                   (with_request x (with_messages saving w))) =
    [saving; next]).
  { intros next x. unfold installed. cbn [with_messages with_request history].
    by rewrite <- app_assoc, drop_app_length. }
  assert (Hwarn : forall next x t e,
    installed w (with_messages next
                   (with_warning t e
                      (with_request x (with_messages saving w)))) =
    [saving; next]).
  { intros next x t e. unfold installed.
    cbn [with_messages with_request with_warning history].
    by rewrite <- app_assoc, drop_app_length. }
  destruct (net (save_edit_request turn content)) as [response|e].
  2: { eexists. split; [reflexivity|]. repeat split. apply Hinst. }
  destruct (response_ok response); cbn [negb].
  2: { eexists. split; [reflexivity|]. repeat split. apply Hinst. }
  destruct (is_json (response_headers_get response "content-type")).
  2: { eexists. split; [reflexivity|]. repeat split. apply Hinst. }
  destruct (response_json response) as [data|e].
  2: { eexists. split; [reflexivity|]. repeat split. apply Hwarn. }
  destruct (optional_get data "response") as [[]|];
    (eexists; split; [reflexivity|]; repeat split; apply Hinst).
Qed.

Lemma patched_twice (messageId : string) (p q : Changes)
    (store : list ChatMessage) k (m : ChatMessage) :
  store !! k = Some m -> id m = messageId -> p_id p = None ->
  markMessage_update messageId q (markMessage_update messageId p store) !! k =
  Some (spread (spread m p) q).
Proof.
  intros Hk Hid Hp.
  apply update_hit; [by apply update_hit|].
  cbn [id spread]. by rewrite Hp.
Qed.

Lemma carries_turn_id (rendered : list ChatMessage) (messageId t : string)
    (target : ChatMessage) :
  find_message messageId rendered = Some target ->
  turnId target = Some t -> t <> "" ->
  find_message messageId rendered ≫= turnId = Some t /\
  no_turnId (find_message messageId rendered ≫= turnId) = false.
Proof.
  intros -> Ht Hne. cbn [mbind option_bind]. rewrite Ht. split; [reflexivity|].
  cbn [no_turnId]. by apply bool_decide_eq_false.
Qed.

(** C5.  When the save of an edit fails, every message of the store with
    that id keeps its content, goes through [saving-edit] back to [ready],
    never to [error], and gets the failure's message as [error]; the value
    thrown reaches the caller; after a non-2xx answer the message holds the
    status code in decimal. *)
Theorem failed_save_keeps_content net (rendered : list ChatMessage)
    (messageId edited t : string) (target : ChatMessage) w (e : Thrown) :
  find_message messageId rendered = Some target ->
  turnId target = Some t -> t <> "" ->
  save_fails net (save_edit_request (Some t) edited) e ->
  let run := handleSaveEdit net rendered messageId edited w in
  let err := message_of e "Unexpected error while saving edit." in
  run.1 = Throw e /\
  (forall k m,
      messages (app w) !! k = Some m -> id m = messageId ->
      seen_at k (installed w run.2) =
        [Some {| id := id m; role := role m; content := content m;
                 turnId := turnId m; status := Some saving_edit;
                 error := error m |};
         Some {| id := id m; role := role m; content := content m;
                 turnId := turnId m; status := Some ready;
                 error := Some err |}] /\
      messages (app run.2) !! k =
        Some {| id := id m; role := role m; content := content m;
                turnId := turnId m; status := Some ready;
                error := Some err |}) /\
  (forall response,
      net (save_edit_request (Some t) edited) = Normal response ->
      response_ok response = false ->
      err = "Unable to save edit (" +:+
            pretty (response_status response) +:+ ")" /\
      includes err (pretty (response_status response)) = true).
Proof.
  intros Hfind Ht Hne Hfails run err.
  destruct (carries_turn_id _ _ _ _ Hfind Ht Hne) as [Hturn Hno].
  assert (Hout : edit_outcome net (Some t) edited = Throw e).
  { unfold edit_outcome. destruct Hfails as [e He|response Hr Hbad].
    - by rewrite He.
    - by rewrite Hr, Hbad. }
  destruct (handleSaveEdit_run net rendered messageId edited w Hno)
    as (w' & Hrun & Hms & Hinst & _).
  rewrite Hturn, Hout in Hrun, Hms, Hinst. cbv beta iota in Hrun, Hms, Hinst.
  fold err in Hms, Hinst.
  subst run. rewrite Hrun. cbn [fst snd].
  split; [reflexivity|]. split.
  - intros k m Hk Hid.
    pose proof (patched_twice messageId saving_patch
                  (save_failed_patch err) _ k m Hk Hid eq_refl) as Hlast.
    rewrite Hinst, Hms. unfold seen_at. cbn [fmap list_fmap].
    rewrite Hlast. erewrite update_hit; [|exact Hk|exact Hid].
    split; reflexivity.
  - intros response Hnet Hbad.
    assert (He : e = JsError ("Unable to save edit (" +:+
                              pretty (response_status response) +:+ ")")).
    { destruct Hfails as [e He|response' Hr Hbad']; rewrite Hnet in *;
        [discriminate | by injection Hr as <-]. }
    subst err. rewrite He. cbn [message_of]. split; [reflexivity|].
    apply (includes_middle "Unable to save edit (").
Qed.

(** C6.  A save aimed at a message that carries no turn id (none, an empty
    one, or no such message in the rendered list) throws the missing-turn-id
    error at once: the world is left as it was, so no request is issued, no
    store is installed and no message becomes [saving-edit]. *)
Theorem save_without_turn_id_fails_fast net (rendered : list ChatMessage)
    (messageId content : string) w :
  no_turnId (find_message messageId rendered ≫= turnId) = true ->
  handleSaveEdit net rendered messageId content w =
  (Throw (JsError "Missing turn ID for this message."), w).
Proof. intros Hno. unfold handleSaveEdit. by rewrite Hno. Qed.

(** C8.  When a save succeeds and the reply is not JSON, or its JSON does
    not parse, or it has no string [response], every message of the store
    with that id ends with the submitted text as content, status [ready] and
    no [error]; the call completes normally. *)
Theorem plain_save_keeps_submitted_text net (rendered : list ChatMessage)
    (messageId edited t : string) (target : ChatMessage) w
    (response : Response) :
  find_message messageId rendered = Some target ->
  turnId target = Some t -> t <> "" ->
  net (save_edit_request (Some t) edited) = Normal response ->
  response_ok response = true ->
  is_json (response_headers_get response "content-type") = false \/
  (exists e, response_json response = Throw e) \/
  (exists data, response_json response = Normal data /\
                forall text, optional_get data "response" <>
                             Some (JString text)) ->
  let run := handleSaveEdit net rendered messageId edited w in
  run.1 = Normal tt /\
  forall k m,
    messages (app w) !! k = Some m -> id m = messageId ->
    messages (app run.2) !! k =
    Some {| id := id m; role := role m; content := edited;
            turnId := turnId m; status := Some ready; error := None |}.
Proof.
  intros Hfind Ht Hne Hnet Hok Hshape run.
  destruct (carries_turn_id _ _ _ _ Hfind Ht Hne) as [Hturn Hno].
  assert (Hout : edit_outcome net (Some t) edited = Normal edited).
  { unfold edit_outcome. rewrite Hnet, Hok. cbn [negb].
    destruct Hshape as [->|[[e He]|(data & Hd & Hnone)]]; [reflexivity| |].
    - destruct (is_json _); [by rewrite He | reflexivity].
    - destruct (is_json _); [|reflexivity]. rewrite Hd.
      destruct (optional_get data "response") as [[]|]; try reflexivity.
      by destruct (Hnone s). }
  destruct (handleSaveEdit_run net rendered messageId edited w Hno)
    as (w' & Hrun & Hms & _).
  rewrite Hturn, Hout in Hrun, Hms. cbv beta iota in Hrun, Hms.
  subst run. rewrite Hrun. cbn [fst snd].
  split; [reflexivity|].
  intros k m Hk Hid. rewrite Hms.
  by rewrite (patched_twice messageId saving_patch (saved_patch edited)
                _ k m Hk Hid eq_refl).
Qed.

(** C10.  A patch keeps the length and the order of the list: the entry at
    each position is the old entry, rewritten if its id matches; nothing is
    inserted, deleted, duplicated or moved, and a patch that carries no [id]
    leaves the sequence of ids as it was. *)
Theorem markMessage_keeps_shape (i : string) (changes : Changes) w :
  let run := markMessage i changes w in
  run.1 = Normal tt /\
  length (messages (app run.2)) = length (messages (app w)) /\
  (forall k,
      messages (app run.2) !! k =
      (fun m => if decide (id m = i) then spread m changes else m)
        <$> messages (app w) !! k) /\
  (p_id changes = None ->
   id <$> messages (app run.2) = id <$> messages (app w)).
Proof.
  cbn. split; [reflexivity|]. split; [apply update_length|].
  split; [intros k; apply update_lookup|].
  intros Hid. unfold markMessage_update. rewrite <- list_fmap_compose.
  apply list_fmap_ext. intros _ m _. cbn.
  destruct (decide (id m = i)); [|reflexivity].
  cbn [id spread]. by rewrite Hid.
Qed.

End runs.

(** ** The scenarios, run *)

(** The decoder carries a character split between two chunks: the bytes
    [C3] and [A9] of U+00E9 arrive apart and come out together. *)
Example split_character_decodes :
  let '(first, dec) :=
    Utf8.decode_stream (Utf8.fresh false) (bytes_of "h" ++ [xc3]) in
  let '(second, dec') := Utf8.decode_stream dec (xa9 :: bytes_of "llo") in
  bytes_of first = bytes_of "h" /\
  bytes_of second = xc3 :: xa9 :: bytes_of "llo" /\
  Utf8.decode_end dec' = "".
Proof. repeat split. Qed.

(** The chunks [He], [llo], closing normally without a turn-id header: the
    content of the bot message goes through [He] and [Hello] and settles
    [ready] at [Hello], without a turn id. *)
Lemma hello_stream_course :
  let w' := (handleSend (answer hello_stream) "u" "b" "Say hello"
               (start empty_app)).2 in
  seen_at 1 (installed (start empty_app) w') =
    [Some (botMessage "b"); Some (streaming_bot "b" "He");
     Some (streaming_bot "b" "Hello"); Some (ready_bot "b" "Hello" None)] /\
  messages (app w') !! 1 =
    Some {| id := "bot-b"; role := bot; content := "Hello"; turnId := None;
            status := Some ready; error := None |} /\
  is_prefix "He" "Hello".
Proof.
  destruct (stream_writes_whole_accumulator (answer hello_stream) "u" "b"
              "Say hello" (start empty_app) hello_stream hello_chunks
              eq_refl eq_refl eq_refl eq_refl)
    as (Hseen & Hparts & Hlast & _).
  split; [exact Hseen|]. split; [exact Hlast | exact (Hparts 1)].
Defined.

(** C1 as stated fails twice.  A stream that breaks off after [He] and [llo]
    showed [He] and [Hello] and ends in [error] with empty content, of which
    [He] is no prefix; and the same chunks closing normally under a turn-id
    header [h9] end with that turn id, not without one. *)
Lemma broken_stream_ends_empty :
  let seen response :=
    seen_at 1 (installed (start empty_app)
                 (handleSend (answer response) "u" "b" "Say hello"
                    (start empty_app)).2) in
  response_body hello_cut_off =
    Some {| chunks := [bytes_of "He"; bytes_of "llo"];
            failure := Some (JsError "network error") |} /\
  seen hello_cut_off =
    [Some (botMessage "b"); Some (streaming_bot "b" "He");
     Some (streaming_bot "b" "Hello");
     Some (failed_bot "b" "network error")] /\
  content (failed_bot "b" "network error") = "" /\
  ~ is_prefix "He" "" /\
  response_body hello_stream_h9 = Some hello_chunks /\
  seen hello_stream_h9 =
    [Some (botMessage "b"); Some (streaming_bot "b" "He");
     Some (streaming_bot "b" "Hello");
     Some (ready_bot "b" "Hello" (Some "h9"))].
Proof.
  repeat split. intros [rest Hrest]. discriminate Hrest.
Qed.

Lemma hi_json_settles :
  messages (app (handleSend (answer hi_json) "u" "b" "Say hi"
                   (start empty_app)).2) !! 1 =
  Some {| id := "bot-b"; role := bot; content := "hi"; turnId := Some "t1";
          status := Some ready; error := None |}.
Proof.
  exact (json_reply_settles (answer hi_json) "u" "b" "Say hi"
           (start empty_app) hi_json eq_refl eq_refl eq_refl eq_refl).
Defined.

(** C2 as stated fails: the reply of JSON content type with that body, under
    a turn-id header [h9], leaves the bot message with turn id [h9], not
    [t1]. *)
Lemma h9_header_overrides_t1 :
  let final := messages (app (handleSend (answer hi_json_with_header)
                                "u" "b" "Say hi" (start empty_app)).2) !! 1 in
  response_ok hi_json_with_header = true /\
  response_headers_get hi_json_with_header "content-type" =
    Some "application/json" /\
  response_json hi_json_with_header =
    Normal (JObject [("response", JString "hi");
                     ("turn_id", JString "t1")]) /\
  final =
    Some {| id := "bot-b"; role := bot; content := "hi";
            turnId := Some "h9"; status := Some ready; error := None |} /\
  final <>
    Some {| id := "bot-b"; role := bot; content := "hi";
            turnId := Some "t1"; status := Some ready; error := None |}.
Proof. repeat split. discriminate. Qed.

(** C3 as stated fails: under a turn-id header that is present but empty,
    and a body whose [turn_id] is [t1], the send succeeds and the bot
    message gets [t1], not the value of the header. *)
Lemma empty_header_yields_to_body :
  let final := messages (app (handleSend (answer hi_json_empty_header)
                                "u" "b" "Say hi" (start empty_app)).2) !! 1 in
  response_ok hi_json_empty_header = true /\
  response_headers_get hi_json_empty_header "x-turn-id" = Some "" /\
  optional_get hi_data "turn_id" = Some (JString "t1") /\
  status <$> final = Some (Some ready) /\
  turnId <$> final = Some (Some "t1") /\
  turnId <$> final <>
    Some (response_headers_get hi_json_empty_header "x-turn-id").
Proof. repeat split. discriminate. Qed.

Lemma header_h9_wins :
  turnId <$> messages (app (handleSend (answer hi_json_with_header)
                              "u" "b" "Say hi" (start empty_app)).2) !! 1 =
  Some (Some "h9").
Proof.
  destruct (header_turn_id_wins_unless_empty (answer hi_json_with_header)
              "u" "b" "Say hi" (start empty_app) hi_json_with_header
              (ready_bot "b" "hi" (Some "h9")) eq_refl eq_refl eq_refl)
    as [Hwins _].
  change (Some (turnId (ready_bot "b" "hi" (Some "h9"))) = Some (Some "h9")).
  apply (f_equal Some). apply Hwins; [reflexivity | discriminate].
Defined.

Lemma status_500_marks_error :
  let w' := (handleSend (answer (refusal 500)) "u" "b" "Say hi"
               (start empty_app)).2 in
  messages (app w') !! 1 =
    Some {| id := "bot-b"; role := bot; content := "";
            turnId := None; status := Some error_status;
            error := Some "Unable to generate response (500)" |} /\
  errorMessage (app w') = Some "Unable to generate response (500)" /\
  includes "Unable to generate response (500)" "500" = true.
Proof.
  destruct (failed_generation_marks_error (answer (refusal 500)) "u" "b"
              "Say hi" (start empty_app) _
              (bad_status (answer (refusal 500)) "Say hi" (refusal 500)
                 eq_refl eq_refl)) as (Hbot & Hpage & Hcode).
  split; [exact Hbot|]. split; [exact Hpage|].
  exact (proj2 (Hcode (refusal 500) eq_refl eq_refl)).
Defined.

Lemma status_400_keeps_reply :
  let run := handleSaveEdit (answer (refusal 400)) talk "bot-1" "Hello!"
               talking in
  run.1 = Throw (JsError "Unable to save edit (400)") /\
  messages (app run.2) =
    [asked;
     {| id := "bot-1"; role := bot; content := "Hello"; turnId := Some "t1";
        status := Some ready; error := Some "Unable to save edit (400)" |};
     streamed] /\
  seen_at 1 (installed talking run.2) =
    [Some {| id := "bot-1"; role := bot; content := "Hello";
             turnId := Some "t1"; status := Some saving_edit;
             error := None |};
     Some {| id := "bot-1"; role := bot; content := "Hello";
             turnId := Some "t1"; status := Some ready;
             error := Some "Unable to save edit (400)" |}] /\
  includes "Unable to save edit (400)" "400" = true.
Proof.
  destruct (failed_save_keeps_content (answer (refusal 400)) talk "bot-1"
              "Hello!" "t1" replied talking _ eq_refl eq_refl
              ltac:(discriminate)
              (save_bad_status (answer (refusal 400)) _ (refusal 400)
                 eq_refl eq_refl)) as (Hthrown & Hkept & Hcode).
  split; [exact Hthrown|]. split; [reflexivity|].
  split; [exact (proj1 (Hkept 1 replied eq_refl eq_refl))|].
  exact (proj2 (Hcode (refusal 400) eq_refl eq_refl)).
Defined.

Lemma no_turn_id_no_request :
  let run := handleSaveEdit (answer hello_text) talk "bot-2" "Bye!" talking in
  run.1 = Throw (JsError "Missing turn ID for this message.") /\
  run.2 = talking /\
  requests run.2 = [] /\
  messages (app run.2) = talk.
Proof.
  pose proof (save_without_turn_id_fails_fast (answer hello_text) talk
                "bot-2" "Bye!" talking eq_refl) as Hrun.
  cbv zeta. rewrite Hrun. repeat split.
Defined.


Lemma plain_reply_saves_edit :
  let run := handleSaveEdit (answer hello_text) talk "bot-1" "Hello!"
               talking in
  run.1 = Normal tt /\
  messages (app run.2) !! 1 =
    Some {| id := "bot-1"; role := bot; content := "Hello!";
            turnId := Some "t1"; status := Some ready; error := None |}.
Proof.
  destruct (plain_save_keeps_submitted_text (answer hello_text) talk "bot-1"
              "Hello!" "t1" replied talking hello_text eq_refl eq_refl
              ltac:(discriminate) eq_refl eq_refl (or_introl eq_refl))
    as [Hdone Hkept].
  split; [exact Hdone|].
  exact (Hkept 1 replied eq_refl eq_refl).
Defined.

Lemma patches_leave_the_others :
  let rewrite_reply :=
    Patch "bot-1" (saved_patch "Hello!") in
  run_ops ([rewrite_reply; Append [streamed]] ++
           [rewrite_reply; Patch "bot-9" saving_patch])
          [asked; replied] !! 2 = Some streamed /\
  apply_op talk (Patch "bot-9" saving_patch) = talk.
Proof.
  destruct untargeted_messages_unchanged as [Hframe Habsent].
  split.
  - apply (Hframe [Patch "bot-1" (saved_patch "Hello!"); Append [streamed]]);
      [reflexivity|].
    cbn. intros Hin. apply elem_of_cons in Hin as [Hin|Hin]; [discriminate|].
    apply list_elem_of_singleton in Hin. discriminate.
  - apply Habsent. intros m Hin.
    repeat (apply elem_of_cons in Hin as [->|Hin]; [discriminate|]).
    inversion Hin.
Defined.

Lemma patch_in_place :
  let run := markMessage "bot-1" (saved_patch "Hello!") talking in
  length (messages (app run.2)) = 3 /\
  id <$> messages (app run.2) = ["user-1"; "bot-1"; "bot-2"] /\
  messages (app run.2) !! 1 =
    Some {| id := "bot-1"; role := bot; content := "Hello!";
            turnId := Some "t1"; status := Some ready; error := None |}.
Proof.
  destruct (markMessage_keeps_shape "bot-1" (saved_patch "Hello!") talking)
    as (_ & Hlen & Hat & Hids).
  split; [exact Hlen|]. split; [exact (Hids eq_refl)|]. exact (Hat 1).
Defined.

(** ** More of [handleSend]: the whole store *)

Section coverage.
Context {Num : JsNumber} {Dec : TextDecoder}.
Implicit Types (w : World) (net : Network) (k : nat).

Lemma read_all_chain (botId : string) (failure : option Thrown) :
  forall (pending : list (list byte)) (dec : decoder) (aggregate : string) w,
    read_all botId pending failure dec aggregate w =
    (match failure with
     | None =>
         Normal (decoder_after dec pending,
                 aggregate +:+ String.concat "" (deltas dec pending))
     | Some e => Throw e
     end,
     {| app := {| messages :=
                    chain_end botId (messages (app w))
                      (streaming_patch <$>
                         accumulators aggregate (deltas dec pending));
                  isGenerating := isGenerating (app w);
                  errorMessage := errorMessage (app w) |};
        history :=
          history w ++
          patch_chain botId (messages (app w))
            (streaming_patch <$>
               accumulators aggregate (deltas dec pending));
        requests := requests w;
        warnings := warnings w |}).
Proof.
  induction pending as [|value rest IH]; intros dec aggregate w.
  - cbn [read_all deltas decoder_after String.concat accumulators fmap
         list_fmap patch_chain chain_end foldl].
    rewrite world_eta, append_nil_r. by destruct failure.
  - cbn [read_all deltas decoder_after].
    destruct (decode_stream dec value) as [text dec'] eqn:Hdec.
    cbv [mbind Async_bind markMessage setMessages]. cbn [snd].
    rewrite IH.
    cbn [accumulators fmap list_fmap patch_chain chain_end foldl
         with_messages app history requests warnings messages isGenerating
         errorMessage].
    rewrite <- app_assoc, concat_cons, append_assoc. reflexivity.
Qed.

Lemma streaming_patches_keep_identity (l : list string) :
  Forall keeps_identity (streaming_patch <$> l).
Proof. apply Forall_fmap, Forall_forall. intros x _. by split. Qed.

Lemma patch_chain_app i store ps qs :
  patch_chain i store (ps ++ qs) =
  patch_chain i store ps ++ patch_chain i (chain_end i store ps) qs.
Proof.
  revert store. induction ps as [|p ps IH]; intros store; [reflexivity|].
  simpl. by rewrite IH.
Qed.

Lemma chain_end_app i store ps qs :
  chain_end i store (ps ++ qs) = chain_end i (chain_end i store ps) qs.
Proof. unfold chain_end. apply foldl_app. Qed.

(** The stores of one send: the appended pair, then patches of the bot
    message's id, none of which rewrites [id] or [role]. *)
Lemma handleSend_chain net (ru rb prompt : string) w :
  let first :=
    append [userMessage ru prompt; botMessage rb] (messages (app w)) in
  exists patches,
    Forall keeps_identity patches /\
    installed w (handleSend net ru rb prompt w).2 =
      first :: patch_chain (createId "bot" rb) first patches /\
    messages (app (handleSend net ru rb prompt w).2) =
      chain_end (createId "bot" rb) first patches.
Proof.
  intros first.
  cbv [handleSend generate mbind Async_bind try_finally try_catch setMessages
       setIsGenerating setErrorMessage fetch markMessage throw].
  fold first. set (w1 := with_request _ _).
  assert (Hone : forall q (w' : World),
    keeps_identity q ->
    messages (app w') = markMessage_update (createId "bot" rb) q first ->
    history w' = (history w ++ [first]) ++
                 [markMessage_update (createId "bot" rb) q first] ->
    exists patches,
      Forall keeps_identity patches /\
      installed w w' = first :: patch_chain (createId "bot" rb) first patches /\
      messages (app w') = chain_end (createId "bot" rb) first patches).
  { intros q w' Hq Hms Hh. exists [q]. split; [by constructor|].
    split; [|exact Hms].
    unfold installed. rewrite Hh, <- !app_assoc, drop_app_length.
    reflexivity. }
  destruct (net (generate_request prompt)) as [response|e].
  2: { cbn [snd]. (eapply Hone; [|reflexivity|reflexivity]; by split). }
  destruct (response_ok response); cbn [negb].
  2: { cbn [snd]. (eapply Hone; [|reflexivity|reflexivity]; by split). }
  unfold resolve.
  destruct (is_json (response_headers_get response "content-type")).
  - cbv [mbind Async_bind await mret Async_ret].
    destruct (response_json response) as [data|e]; cbn [snd];
      (eapply Hone; [|reflexivity|reflexivity]; by split).
  - destruct (response_body response) as [stream|].
    + cbv [mbind Async_bind mret Async_ret]. rewrite read_all_chain.
      set (ps := streaming_patch <$> _).
      assert (Hmany : forall q (w' : World),
        keeps_identity q ->
        messages (app w') =
          markMessage_update (createId "bot" rb) q
            (chain_end (createId "bot" rb) first ps) ->
        history w' =
          ((history w ++ [first]) ++
           patch_chain (createId "bot" rb) first ps) ++
          [markMessage_update (createId "bot" rb) q
             (chain_end (createId "bot" rb) first ps)] ->
        exists patches,
          Forall keeps_identity patches /\
          installed w w' =
            first :: patch_chain (createId "bot" rb) first patches /\
          messages (app w') = chain_end (createId "bot" rb) first patches).
      { intros q w' Hq Hms Hh. exists (ps ++ [q]).
        split; [apply Forall_app; split;
                  [apply streaming_patches_keep_identity | by constructor]|].
        split.
        - unfold installed.
          rewrite Hh, <- !app_assoc, drop_app_length, patch_chain_app.
          reflexivity.
        - rewrite Hms, chain_end_app. reflexivity. }
      destruct (failure stream) as [e|]; cbn [snd];
        (eapply Hmany; [|reflexivity|reflexivity]; by split).
    + cbv [mbind Async_bind await mret Async_ret].
      destruct (response_text response) as [text|e]; cbn [snd];
        (eapply Hone; [|reflexivity|reflexivity]; by split).
Qed.

Lemma chain_invariant (P : list ChatMessage -> Prop) (i : string) :
  (forall q store, keeps_identity q -> P store ->
                   P (markMessage_update i q store)) ->
  forall patches store,
    Forall keeps_identity patches -> P store ->
    Forall P (patch_chain i store patches) /\ P (chain_end i store patches).
Proof.
  intros Hstep. induction patches as [|q patches IH]; intros store Hok HP.
  - split; [constructor | exact HP].
  - inversion Hok as [|q' l' Hq Hrest]; subst.
    destruct (IH (markMessage_update i q store) Hrest (Hstep _ _ Hq HP))
      as [Hall Hend].
    split; [constructor; [by apply Hstep | exact Hall] | exact Hend].
Qed.

Lemma append_cancel (s a b : string) : s +:+ a = s +:+ b -> a = b.
Proof.
  induction s as [|c s IH]; [by intros|].
  change (String c (s +:+ a) = String c (s +:+ b) -> a = b).
  intros [= H]. by apply IH.
Qed.

(** X1.  The ids that [createId] makes for the two messages of a send never
    coincide, and under one prefix different random parts give different
    ids. *)
Theorem createId_tells_apart :
  (forall a b : string, createId "user" a <> createId "bot" b) /\
  (forall prefix a b : string,
      createId prefix a = createId prefix b -> a = b).
Proof.
  split.
  - intros a b. discriminate.
  - intros prefix a b H. unfold createId in H.
    apply append_cancel in H. by injection H.
Qed.

(** X2.  When the request and every read of the body settle, as all that a
    [Network] and a [ReadableStream] describe do, [handleSend] absorbs every
    failure: it completes normally, ends with [isGenerating] false, and has
    issued exactly one request, a POST of the prompt as JSON to
    [/generate_response].  A request or a read that never settles is outside
    this statement. *)
Theorem send_always_completes net (ru rb prompt : string) w :
  let run := handleSend net ru rb prompt w in
  run.1 = Normal tt /\
  isGenerating (app run.2) = false /\
  requests run.2 =
    requests w ++
    [{| url := "/generate_response"; method := "POST";
        headers := [("Content-Type", "application/json")];
        body := JSON_stringify (JObject [("prompt", JString prompt)]) |}].
Proof.
  destruct (handleSend_course net ru rb prompt w)
    as (w' & Hrun & _ & _ & _ & Hgen & Hreq).
  cbv zeta. rewrite Hrun. cbn [fst snd]. by repeat split.
Qed.

(** X3.  When [handleSend] returns, its bot message is settled: either
    [ready] without an error, the page-level error cleared, or [error] with
    empty content and the same message as the page-level error.  It is never
    left [streaming]. *)
Theorem send_never_leaves_streaming net (ru rb prompt : string) w :
  let w' := (handleSend net ru rb prompt w).2 in
  exists m,
    messages (app w') !! bot_slot w = Some m /\
    ((status m = Some ready /\ error m = None /\
      errorMessage (app w') = None) \/
     (status m = Some error_status /\ content m = "" /\
      exists err, error m = Some err /\ errorMessage (app w') = Some err)).
Proof.
  destruct (handleSend_course net ru rb prompt w)
    as (w' & Hrun & _ & Hk & Herr & _).
  cbv zeta. rewrite Hrun. cbn [snd].
  exists (reply_course net rb prompt).2. split; [exact Hk|].
  rewrite Herr. clear. unfold reply_course.
  destruct (net (generate_request prompt)) as [response|e];
    [|right; repeat split; by eexists].
  destruct (response_ok response); cbn [negb];
    [|right; repeat split; by eexists].
  destruct (is_json _).
  - destruct (response_json response);
      [by left | right; repeat split; by eexists].
  - destruct (response_body response) as [stream|].
    + destruct (failure stream);
        [right; repeat split; by eexists | by left].
    + destruct (response_text response);
        [by left | right; repeat split; by eexists].
Qed.

Lemma fresh_id_absent (i : string) (old : list ChatMessage) :
  i ∉ id <$> old -> forall m, m ∈ old -> id m <> i.
Proof.
  intros Hfresh m Hin <-. apply Hfresh. apply list_elem_of_fmap.
  by exists m.
Qed.

Lemma pair_kept_by_patches (ru rb prompt : string)
    (old : list ChatMessage) (patches : list Changes) :
  let grown := fun s : list ChatMessage =>
    exists b, s = old ++ [userMessage ru prompt; b] /\
              id b = createId "bot" rb /\ role b = bot in
  let first := append [userMessage ru prompt; botMessage rb] old in
  createId "bot" rb ∉ id <$> old ->
  Forall keeps_identity patches ->
  Forall grown (patch_chain (createId "bot" rb) first patches) /\
  grown (chain_end (createId "bot" rb) first patches).
Proof.
  intros grown first Hfresh Hok.
  apply chain_invariant; [|exact Hok|].
  - intros q s [Hid Hrole] (b & -> & Hb & Hr).
    exists (spread b q). split; [|split].
    + unfold markMessage_update. rewrite fmap_app.
      fold (markMessage_update (createId "bot" rb) q old).
      rewrite (update_absent _ _ _ (fresh_id_absent _ _ Hfresh)).
      cbn [fmap list_fmap].
      destruct (decide (id (userMessage ru prompt) = createId "bot" rb))
        as [He|_]; [discriminate He|].
      destruct (decide (id b = createId "bot" rb));
        [reflexivity|contradiction].
    + cbn [id spread]. by rewrite Hid.
    + cbn [role spread]. by rewrite Hrole.
  - exists (botMessage rb). by repeat split.
Qed.

Lemma handleSend_final_store net (ru rb prompt : string) w :
  createId "bot" rb ∉ id <$> messages (app w) ->
  exists b,
    messages (app (handleSend net ru rb prompt w).2) =
      messages (app w) ++ [userMessage ru prompt; b] /\
    id b = createId "bot" rb /\ role b = bot.
Proof.
  intros Hfresh.
  destruct (handleSend_chain net ru rb prompt w)
    as (patches & Hok & _ & Hend).
  rewrite Hend.
  exact (proj2 (pair_kept_by_patches ru rb prompt _ patches Hfresh Hok)).
Qed.

(** X4.  When the id made for the bot message is new to the store, every
    store that a send installs, and the one it ends with, is the old store
    followed by the user message as submitted and a bot message of that id:
    earlier messages keep their place and value, and nothing else is
    added. *)
Theorem send_appends_one_pair net (ru rb prompt : string) w
    (store : list ChatMessage) :
  createId "bot" rb ∉ id <$> messages (app w) ->
  store ∈ installed w (handleSend net ru rb prompt w).2 \/
  store = messages (app (handleSend net ru rb prompt w).2) ->
  exists b,
    store = messages (app w) ++ [userMessage ru prompt; b] /\
    id b = createId "bot" rb /\ role b = bot.
Proof.
  intros Hfresh Hstore.
  destruct (handleSend_chain net ru rb prompt w)
    as (patches & Hok & Hinst & Hend).
  destruct (pair_kept_by_patches ru rb prompt _ patches Hfresh Hok)
    as [Hall Hlast].
  destruct Hstore as [Hin | ->].
  - rewrite Hinst in Hin. apply elem_of_cons in Hin as [->|Hin].
    + exists (botMessage rb). by repeat split.
    + by apply (proj1 (Forall_forall _ _) Hall).
  - rewrite Hend. exact Hlast.
Qed.

(** X5.  A send keeps the ids of the store distinct, as long as the two ids
    it makes are new to the store. *)
Theorem send_keeps_ids_distinct net (ru rb prompt : string) w :
  NoDup (id <$> messages (app w)) ->
  createId "user" ru ∉ id <$> messages (app w) ->
  createId "bot" rb ∉ id <$> messages (app w) ->
  NoDup (id <$> messages (app (handleSend net ru rb prompt w).2)).
Proof.
  intros Hnodup Huser Hbot.
  destruct (handleSend_final_store net ru rb prompt w Hbot)
    as (b & -> & Hb & _).
  rewrite fmap_app. cbn [fmap list_fmap]. rewrite Hb.
  apply NoDup_app. split; [exact Hnodup|]. split.
  - intros i Hin Hnew. apply elem_of_cons in Hnew as [->|Hnew];
      [by apply Huser|].
    apply list_elem_of_singleton in Hnew as ->. by apply Hbot.
  - apply NoDup_cons. split; [|apply NoDup_singleton].
    intros Hin. apply list_elem_of_singleton in Hin. discriminate Hin.
Qed.

(** ** More of [handleSaveEdit] *)

Lemma handleSaveEdit_rest net (rendered : list ChatMessage)
    (messageId edited : string) w :
  let turn := find_message messageId rendered ≫= turnId in
  let run := handleSaveEdit net rendered messageId edited w in
  no_turnId turn = false ->
  isGenerating (app run.2) = isGenerating (app w) /\
  warnings run.2 =
    warnings w ++
    match net (save_edit_request turn edited) with
    | Normal response =>
        if response_ok response &&
           is_json (response_headers_get response "content-type")
        then
          match response_json response with
          | Throw e => [("Unable to parse JSON response from save_edit", e)]
          | Normal _ => []
          end
        else []
    | Throw _ => []
    end.
Proof.
  intros turn run Hturn. unfold run, handleSaveEdit.
  fold turn. rewrite Hturn.
  cbv [mbind Async_bind try_catch setMessages fetch markMessage throw
       updated_content await mret Async_ret console_warn].
  destruct (net (save_edit_request turn edited)) as [response|e];
    [|cbn; by rewrite app_nil_r].
  destruct (response_ok response); cbn [negb andb];
    [|cbn; by rewrite app_nil_r].
  destruct (is_json (response_headers_get response "content-type"));
    [|cbn; by rewrite app_nil_r].
  destruct (response_json response) as [data|e]; [|by cbn].
  destruct (optional_get data "response") as [[]|];
    cbn; by rewrite app_nil_r.
Qed.

(** X6.  When a save succeeds and the JSON reply has a string [response],
    that text, not the submitted one, becomes the content of every message
    with that id, with status [ready] and no [error]. *)
Theorem json_save_takes_backend_text net (rendered : list ChatMessage)
    (messageId edited t text : string) (target : ChatMessage) w
    (response : Response) (data : JsValue) :
  find_message messageId rendered = Some target ->
  turnId target = Some t -> t <> "" ->
  net (save_edit_request (Some t) edited) = Normal response ->
  response_ok response = true ->
  is_json (response_headers_get response "content-type") = true ->
  response_json response = Normal data ->
  optional_get data "response" = Some (JString text) ->
  let run := handleSaveEdit net rendered messageId edited w in
  run.1 = Normal tt /\
  forall k m,
    messages (app w) !! k = Some m -> id m = messageId ->
    messages (app run.2) !! k =
    Some {| id := id m; role := role m; content := text;
            turnId := turnId m; status := Some ready; error := None |}.
Proof.
  intros Hfind Ht Hne Hnet Hok Hjson Hdata Htext run.
  destruct (carries_turn_id _ _ _ _ Hfind Ht Hne) as [Hturn Hno].
  assert (Hout : edit_outcome net (Some t) edited = Normal text).
  { unfold edit_outcome. by rewrite Hnet, Hok, Hjson, Hdata, Htext. }
  destruct (handleSaveEdit_run net rendered messageId edited w Hno)
    as (w' & Hrun & Hms & _).
  rewrite Hturn, Hout in Hrun, Hms. cbv beta iota in Hrun, Hms.
  subst run. rewrite Hrun. cbn [fst snd]. split; [reflexivity|].
  intros k m Hk Hid. rewrite Hms.
  by rewrite (patched_twice messageId saving_patch (saved_patch text)
                _ k m Hk Hid eq_refl).
Qed.

Lemma update_keeps (A : Type) (f : ChatMessage -> A) (i : string)
    (q : Changes) (store : list ChatMessage) :
  (forall m, f (spread m q) = f m) ->
  f <$> markMessage_update i q store = f <$> store.
Proof.
  intros Hf. unfold markMessage_update. rewrite <- list_fmap_compose.
  apply list_fmap_ext. intros _ m _. cbn.
  by destruct (decide (id m = i)).
Qed.

(** X7.  A save whose target carries a turn id, whatever the backend
    answers, issues exactly one request, with the turn id found in the
    rendered list; it keeps the length of the store and the id, role and
    turn id at every position, leaves every message of another id as it
    was, and touches neither the page-level error nor [isGenerating]. *)
Theorem save_touches_only_its_message net (rendered : list ChatMessage)
    (messageId edited t : string) (target : ChatMessage) w :
  find_message messageId rendered = Some target ->
  turnId target = Some t -> t <> "" ->
  let run := handleSaveEdit net rendered messageId edited w in
  requests run.2 = requests w ++ [save_edit_request (Some t) edited] /\
  id <$> messages (app run.2) = id <$> messages (app w) /\
  role <$> messages (app run.2) = role <$> messages (app w) /\
  turnId <$> messages (app run.2) = turnId <$> messages (app w) /\
  (forall k m, messages (app w) !! k = Some m -> id m <> messageId ->
               messages (app run.2) !! k = Some m) /\
  errorMessage (app run.2) = errorMessage (app w) /\
  isGenerating (app run.2) = isGenerating (app w).
Proof.
  intros Hfind Ht Hne run.
  destruct (carries_turn_id _ _ _ _ Hfind Ht Hne) as [Hturn Hno].
  destruct (handleSaveEdit_rest net rendered messageId edited w Hno)
    as [Hgen _].
  destruct (handleSaveEdit_run net rendered messageId edited w Hno)
    as (w' & Hrun & Hms & _ & Hreq & Herr).
  fold run in Hgen. rewrite Hturn in Hreq, Hrun, Hms.
  subst run. rewrite Hrun in *. cbn [fst snd] in *.
  split; [exact Hreq|]. rewrite Hms.
  assert (Hkeep : forall (A : Type) (f : ChatMessage -> A) q,
    (forall m, f (spread m q) = f m) ->
    (forall m, f (spread m saving_patch) = f m) ->
    f <$> markMessage_update messageId q
            (markMessage_update messageId saving_patch (messages (app w))) =
    f <$> messages (app w)).
  { intros A f q Hq Hs. by rewrite !update_keeps. }
  destruct (edit_outcome net (Some t) edited) as [text|e];
    (split; [by apply Hkeep|]; split; [by apply Hkeep|];
     split; [by apply Hkeep|]; split; [|by split];
     intros k m Hk Hid; apply update_other; [|exact Hid];
     by apply update_other).
Qed.

(** X8.  A save whose target carries a turn id writes to the console
    exactly when a 2xx reply of JSON content type does not parse: one
    warning, holding what the parser threw; in every other case none. *)
Theorem save_warns_on_unparsed_json net (rendered : list ChatMessage)
    (messageId edited t : string) (target : ChatMessage) w :
  find_message messageId rendered = Some target ->
  turnId target = Some t -> t <> "" ->
  warnings (handleSaveEdit net rendered messageId edited w).2 =
    warnings w ++
    match net (save_edit_request (Some t) edited) with
    | Normal response =>
        if response_ok response &&
           is_json (response_headers_get response "content-type")
        then
          match response_json response with
          | Throw e => [("Unable to parse JSON response from save_edit", e)]
          | Normal _ => []
          end
        else []
    | Throw _ => []
    end.
Proof.
  intros Hfind Ht Hne.
  destruct (carries_turn_id _ _ _ _ Hfind Ht Hne) as [Hturn Hno].
  destruct (handleSaveEdit_rest net rendered messageId edited w Hno)
    as [_ Hwarn].
  by rewrite Hturn in Hwarn.
Qed.

(** ** A send, then a save *)

Lemma find_message_appended (i : string) (old : list ChatMessage)
    (u b : ChatMessage) :
  i ∉ id <$> old -> id u <> i -> id b = i ->
  find_message i (old ++ [u; b]) = Some b.
Proof.
  intros Hfresh Hu Hb. induction old as [|m old IH]; simpl.
  - destruct (decide (id u = i)); [contradiction|].
    destruct (decide (id b = i)); [reflexivity|contradiction].
  - destruct (decide (id m = i)) as [He|_].
    + exfalso. apply Hfresh. rewrite <- He. cbn. left.
    + apply IH. intros Hin. apply Hfresh. cbn. by right.
Qed.

Lemma sent_bot_found net (ru rb prompt : string) w (m : ChatMessage) :
  createId "bot" rb ∉ id <$> messages (app w) ->
  messages (app (handleSend net ru rb prompt w).2) !! bot_slot w = Some m ->
  find_message (createId "bot" rb)
    (messages (app (handleSend net ru rb prompt w).2)) = Some m.
Proof.
  intros Hfresh Hm.
  destruct (handleSend_final_store net ru rb prompt w Hfresh)
    as (b & Hstore & Hb & _).
  rewrite Hstore in Hm |- *.
  unfold bot_slot in Hm. rewrite lookup_app_r in Hm by lia.
  replace (S (length (messages (app w))) - length (messages (app w)))
    with 1 in Hm by lia.
  injection Hm as <-.
  apply find_message_appended; [exact Hfresh | discriminate | exact Hb].
Qed.

(** X9.  A reply that settled with a turn id can be edited: a save aimed
    at the id of the bot message, from the list the send left, passes the
    guard and sends that turn id with the edited text. *)
Theorem reply_with_turn_id_can_be_edited net net' (ru rb prompt : string)
    w (m : ChatMessage) (t edited : string) :
  let after := (handleSend net ru rb prompt w).2 in
  createId "bot" rb ∉ id <$> messages (app w) ->
  messages (app after) !! bot_slot w = Some m ->
  turnId m = Some t -> t <> "" ->
  requests (handleSaveEdit net' (messages (app after))
              (createId "bot" rb) edited after).2 =
  requests after ++ [save_edit_request (Some t) edited].
Proof.
  intros after Hfresh Hm Ht Hne. subst after.
  pose proof (sent_bot_found net ru rb prompt w m Hfresh Hm) as Hfind.
  destruct (carries_turn_id _ _ _ _ Hfind Ht Hne) as [Hturn Hno].
  destruct (handleSaveEdit_run net' _ (createId "bot" rb) edited
              (handleSend net ru rb prompt w).2 Hno)
    as (w' & Hrun & _ & _ & Hreq & _).
  rewrite Hturn in Hreq. rewrite Hrun. exact Hreq.
Qed.

(** X10.  A reply that settled without a turn id (a streamed or plain-text
    reply without the header, or a failed generation) cannot be edited: the
    save throws the missing-turn-id error and changes nothing. *)
Theorem reply_without_turn_id_cannot_be_edited net net'
    (ru rb prompt : string) w (m : ChatMessage) (edited : string) :
  let after := (handleSend net ru rb prompt w).2 in
  createId "bot" rb ∉ id <$> messages (app w) ->
  messages (app after) !! bot_slot w = Some m ->
  no_turnId (turnId m) = true ->
  handleSaveEdit net' (messages (app after)) (createId "bot" rb) edited
    after =
  (Throw (JsError "Missing turn ID for this message."), after).
Proof.
  intros after Hfresh Hm Hno. subst after.
  pose proof (sent_bot_found net ru rb prompt w m Hfresh Hm) as Hfind.
  unfold handleSaveEdit. rewrite Hfind.
  cbn [mbind option_bind]. by rewrite Hno.
Qed.

(** ** [MessageInput] *)

(** X11.  Submitting a prompt that is blank once trimmed, or submitting
    while a submission is under way, does nothing: no callback runs and the
    page is as it was. *)
Theorem blank_or_busy_submit_does_nothing (onSend : string -> Async unit)
    (onClearError : Async unit) (p : Page) :
  is_empty (trim (prompt (input p))) = true \/
  isSubmitting (input p) = true ->
  handleSubmit onSend onClearError p = (Normal tt, p).
Proof.
  intros Hskip. unfold handleSubmit.
  destruct Hskip as [-> | ->]; [reflexivity|].
  by rewrite orb_true_r.
Qed.

(** X12.  A submission that goes ahead clears the error, hands the trimmed
    prompt to [onSend], and always ends with [isSubmitting] false; the
    typed prompt is cleared when [onSend] completes and kept when it throws,
    in which case the same value is thrown on. *)
Theorem submit_clears_prompt_after_send (onSend : string -> Async unit)
    (onClearError : Async unit) (p : Page) (w1 : World) :
  is_empty (trim (prompt (input p))) = false ->
  isSubmitting (input p) = false ->
  onClearError (world p) = (Normal tt, w1) ->
  handleSubmit onSend onClearError p =
  match onSend (trim (prompt (input p))) w1 with
  | (Normal _, w2) =>
      (Normal tt,
       {| world := w2;
          input := {| prompt := ""; isSubmitting := false |};
          chat := chat p |})
  | (Throw e, w2) =>
      (Throw e,
       {| world := w2;
          input := {| prompt := prompt (input p); isSubmitting := false |};
          chat := chat p |})
  end.
Proof.
  intros Hblank Hbusy Hclear. unfold handleSubmit.
  rewrite Hblank, Hbusy. cbn [orb].
  cbv [mbind UI_bind lift ui_try_finally setIsSubmitting setPrompt
       with_input]. cbn [world input chat prompt isSubmitting].
  rewrite Hclear. cbn [world input chat prompt isSubmitting].
  destruct (onSend (trim (prompt (input p))) w1) as [[[]|e] w2]; reflexivity.
Qed.

(** X13.  As [App] wires it, a submission that goes ahead runs [handleSend]
    on the trimmed prompt with the page-level error cleared first; when the
    request and every read of the body settle, with success or with failure,
    it completes with the prompt emptied and [isSubmitting] false: a failed
    generation also discards what was typed.  A request or a read that never
    settles is outside this statement. *)
Theorem submitted_prompt_is_always_cleared net (ru rb : string) (p : Page) :
  is_empty (trim (prompt (input p))) = false ->
  isSubmitting (input p) = false ->
  submit_prompt net ru rb p =
  (Normal tt,
   {| world :=
        (handleSend net ru rb (trim (prompt (input p)))
           (with_errorMessage None (world p))).2;
      input := {| prompt := ""; isSubmitting := false |};
      chat := chat p |}).
Proof.
  intros Hblank Hbusy. unfold submit_prompt, handleSubmit.
  rewrite Hblank, Hbusy. cbn [orb].
  cbv [mbind UI_bind lift ui_try_finally setIsSubmitting setPrompt
       with_input setErrorMessage].
  cbn [world input chat prompt isSubmitting].
  destruct (handleSend_course net ru rb (trim (prompt (input p)))
              (with_errorMessage None (world p))) as (w' & Hrun & _).
  rewrite Hrun. reflexivity.
Qed.

(** ** [ChatHistory] *)

(** X14.  Saving a draft that is blank once trimmed only sets the local
    error: [onSaveEdit] is not called, and the editor stays open with the
    draft as typed. *)
Theorem blank_draft_is_not_saved (onSaveEdit : string -> string -> Async unit)
    (message : ChatMessage) (p : Page) :
  is_empty (trim (draft (chat p))) = true ->
  handleSave onSaveEdit message p =
  (Normal tt,
   {| world := world p; input := input p;
      chat := {| editingId := editingId (chat p); draft := draft (chat p);
                 savedIndicator := savedIndicator (chat p);
                 localError := Some "Response cannot be empty." |} |}).
Proof. intros Hblank. unfold handleSave. by rewrite Hblank. Qed.

(** X15.  Saving a draft that is not blank hands the id and the trimmed
    draft to [onSaveEdit] and never throws.  When [onSaveEdit] completes, the
    editor closes, the draft is emptied and the message is marked saved;
    when it throws, the editor stays open with the draft and the saved marks
    as they were, and the local error is the message of what was thrown. *)
Theorem save_closes_editor_only_on_success
    (onSaveEdit : string -> string -> Async unit) (message : ChatMessage)
    (p : Page) :
  is_empty (trim (draft (chat p))) = false ->
  handleSave onSaveEdit message p =
  match onSaveEdit (id message) (trim (draft (chat p))) (world p) with
  | (Normal _, w') =>
      (Normal tt,
       {| world := w'; input := input p;
          chat := {| editingId := None; draft := "";
                     savedIndicator :=
                       <[id message := true]> (savedIndicator (chat p));
                     localError := None |} |})
  | (Throw e, w') =>
      (Normal tt,
       {| world := w'; input := input p;
          chat := {| editingId := editingId (chat p);
                     draft := draft (chat p);
                     savedIndicator := savedIndicator (chat p);
                     localError :=
                       Some (message_of e "Unable to save edit.") |} |})
  end.
Proof.
  intros Hblank. unfold handleSave. rewrite Hblank.
  cbv [mbind UI_bind lift ui_try_catch setLocalError setEditingId setDraft
       setSavedIndicator with_chat].
  cbn [world input chat editingId draft savedIndicator localError].
  destruct (onSaveEdit (id message) (trim (draft (chat p))) (world p))
    as [[[]|e] w']; reflexivity.
Qed.

(** X16.  As [App] wires it, a save that the backend fails leaves the
    editor open with the draft as typed and shows the failure twice: as the
    local error of the editor and as the [error] of the message, whose
    content is untouched and whose status is back to [ready]. *)
Theorem failed_save_keeps_draft_and_reply net (message target : ChatMessage)
    (p : Page) (t : string) (e : Thrown) :
  find_message (id message) (messages (app (world p))) = Some target ->
  turnId target = Some t -> t <> "" ->
  is_empty (trim (draft (chat p))) = false ->
  save_fails net (save_edit_request (Some t) (trim (draft (chat p)))) e ->
  let run := save_draft net message p in
  run.1 = Normal tt /\
  chat run.2 =
    {| editingId := editingId (chat p); draft := draft (chat p);
       savedIndicator := savedIndicator (chat p);
       localError := Some (message_of e "Unable to save edit.") |} /\
  forall k m,
    messages (app (world p)) !! k = Some m -> id m = id message ->
    messages (app (world run.2)) !! k =
    Some {| id := id m; role := role m; content := content m;
            turnId := turnId m; status := Some ready;
            error :=
              Some (message_of e "Unexpected error while saving edit.") |}.
Proof.
  intros Hfind Ht Hne Hblank Hfails run.
  destruct (carries_turn_id _ _ _ _ Hfind Ht Hne) as [Hturn Hno].
  assert (Hout : edit_outcome net (Some t) (trim (draft (chat p))) = Throw e).
  { unfold edit_outcome. destruct Hfails as [e He|response Hr Hbad].
    - by rewrite He.
    - by rewrite Hr, Hbad. }
  destruct (handleSaveEdit_run net _ (id message) (trim (draft (chat p)))
              (world p) Hno) as (w' & Hrun & Hms & _).
  rewrite Hturn, Hout in Hrun, Hms. cbv beta iota in Hrun, Hms.
  subst run. unfold save_draft, handleSave. rewrite Hblank.
  cbv [mbind UI_bind lift ui_try_catch setLocalError setEditingId setDraft
       setSavedIndicator with_chat].
  cbn [world input chat editingId draft savedIndicator localError].
  rewrite Hrun. cbn [fst snd world chat].
  split; [reflexivity|]. split; [reflexivity|].
  intros k m Hk Hid. rewrite Hms.
  by rewrite (patched_twice (id message) saving_patch
                (save_failed_patch _) _ k m Hk Hid eq_refl).
Qed.

(** X17.  As [App] wires it, a save that the backend accepts with a reply
    that is not JSON stores the trimmed draft as the content of the message,
    closes the editor, empties the draft and marks the message saved. *)
Theorem saved_draft_reaches_store net (message target : ChatMessage)
    (p : Page) (t : string) (response : Response) :
  find_message (id message) (messages (app (world p))) = Some target ->
  turnId target = Some t -> t <> "" ->
  is_empty (trim (draft (chat p))) = false ->
  net (save_edit_request (Some t) (trim (draft (chat p)))) =
    Normal response ->
  response_ok response = true ->
  is_json (response_headers_get response "content-type") = false ->
  let run := save_draft net message p in
  run.1 = Normal tt /\
  chat run.2 =
    {| editingId := None; draft := "";
       savedIndicator := <[id message := true]> (savedIndicator (chat p));
       localError := None |} /\
  forall k m,
    messages (app (world p)) !! k = Some m -> id m = id message ->
    messages (app (world run.2)) !! k =
    Some {| id := id m; role := role m;
            content := trim (draft (chat p));
            turnId := turnId m; status := Some ready; error := None |}.
Proof.
  intros Hfind Ht Hne Hblank Hnet Hok Hjson run.
  destruct (carries_turn_id _ _ _ _ Hfind Ht Hne) as [Hturn Hno].
  assert (Hout : edit_outcome net (Some t) (trim (draft (chat p))) =
                 Normal (trim (draft (chat p)))).
  { unfold edit_outcome. by rewrite Hnet, Hok, Hjson. }
  destruct (handleSaveEdit_run net _ (id message) (trim (draft (chat p)))
              (world p) Hno) as (w' & Hrun & Hms & _).
  rewrite Hturn, Hout in Hrun, Hms. cbv beta iota in Hrun, Hms.
  subst run. unfold save_draft, handleSave. rewrite Hblank.
  cbv [mbind UI_bind lift ui_try_catch setLocalError setEditingId setDraft
       setSavedIndicator with_chat].
  cbn [world input chat editingId draft savedIndicator localError].
  rewrite Hrun. cbn [fst snd world chat].
  split; [reflexivity|]. split; [reflexivity|].
  intros k m Hk Hid. rewrite Hms.
  by rewrite (patched_twice (id message) saving_patch
                (saved_patch _) _ k m Hk Hid eq_refl).
Qed.

(** X18.  The saved mark of a message shows beside Edit from a successful
    save until the message is edited again: opening the editor replaces both
    by Cancel and Save, and cancelling brings back Edit without the mark. *)
Theorem saved_mark_lasts_until_next_edit
    (onSaveEdit : string -> string -> Async unit) (message : ChatMessage)
    (p : Page) (w' : World) :
  is_bot (role message) = true ->
  no_turnId (turnId message) = false ->
  is_empty (trim (draft (chat p))) = false ->
  onSaveEdit (id message) (trim (draft (chat p))) (world p) =
    (Normal tt, w') ->
  let saved := (handleSave onSaveEdit message p).2 in
  let reopened := (startEditing message saved).2 in
  let closed := (cancelEditing reopened).2 in
  let busy := isGenerating (app w') in
  let saving := is_saving (status message) in
  actions_shown saved message = [EditButton busy; SavedBadge] /\
  actions_shown reopened message =
    [CancelButton saving; SaveButton saving] /\
  actions_shown closed message = [EditButton busy].
Proof.
  intros Hbot Hturn Hblank Hsave saved reopened closed busy saving.
  subst saved reopened closed. unfold handleSave. rewrite Hblank.
  cbv [mbind UI_bind lift ui_try_catch setLocalError setEditingId setDraft
       setSavedIndicator with_chat startEditing cancelEditing].
  cbn [world input chat editingId draft savedIndicator localError].
  rewrite Hsave. cbn [fst snd world chat input].
  unfold actions_shown, message_actions.
  cbn [world chat editingId savedIndicator]. rewrite Hbot, Hturn.
  cbn [andb negb].
  rewrite (bool_decide_eq_false_2 (None = Some (id message)))
    by discriminate.
  rewrite (bool_decide_eq_true_2 (Some (id message) = Some (id message)))
    by reflexivity.
  rewrite !lookup_insert_eq.
  rewrite (bool_decide_eq_true_2 (Some true = Some true)) by reflexivity.
  rewrite (bool_decide_eq_false_2 (Some false = Some true)) by discriminate.
  by repeat split.
Qed.

Lemma find_message_unique (rendered : list ChatMessage) (m : ChatMessage) :
  NoDup (id <$> rendered) -> m ∈ rendered ->
  find_message (id m) rendered = Some m.
Proof.
  induction rendered as [|x rest IH]; intros Hnodup Hin; [inversion Hin|].
  cbn [fmap list_fmap] in Hnodup. apply NoDup_cons in Hnodup as [Hx Hrest].
  cbn [find_message]. apply elem_of_cons in Hin as [->|Hin].
  - destruct (decide (id x = id x)); [reflexivity|contradiction].
  - destruct (decide (id x = id m)) as [He|_]; [|by apply IH].
    exfalso. apply Hx. rewrite He. apply list_elem_of_fmap. by exists m.
Qed.

(** X19.  The header of a message offers no control at all unless the
    message is a bot message with a turn id that is not empty; and when the
    ids of the rendered list are distinct, a save of any message that is
    offered a control passes the guard of [handleSaveEdit] and sends the
    turn id of that message. *)
Theorem offered_controls_pass_the_guard net (st : HistoryState)
    (isBusy : bool) (rendered : list ChatMessage) (message : ChatMessage)
    (edited : string) w :
  (message_actions st isBusy message = [] <->
   role message = user \/ no_turnId (turnId message) = true) /\
  (NoDup (id <$> rendered) -> message ∈ rendered ->
   message_actions st isBusy message <> [] ->
   requests (handleSaveEdit net rendered (id message) edited w).2 =
   requests w ++ [save_edit_request (turnId message) edited]).
Proof.
  assert (Hshown : message_actions st isBusy message = [] <->
            role message = user \/ no_turnId (turnId message) = true).
  { unfold message_actions. destruct (role message); cbn [is_bot andb].
    - split; [by left | reflexivity].
    - destruct (no_turnId (turnId message)); cbn [negb].
      + split; [by right | reflexivity].
      + split; [|by intros [|]].
        by destruct (bool_decide (editingId st = Some (id message))). }
  split; [exact Hshown|].
  intros Hnodup Hin Hsome.
  assert (Hno : no_turnId (turnId message) = false).
  { destruct (no_turnId (turnId message)); [|reflexivity].
    exfalso. apply Hsome, Hshown. by right. }
  pose proof (find_message_unique rendered message Hnodup Hin) as Hfind.
  assert (Hturn : find_message (id message) rendered ≫= turnId =
                  turnId message) by (by rewrite Hfind).
  destruct (handleSaveEdit_run net rendered (id message) edited w)
    as (w' & Hrun & _ & _ & Hreq & _); [by rewrite Hturn|].
  rewrite Hrun. cbn [snd]. rewrite Hreq, Hturn. reflexivity.
Qed.

End coverage.

(** ** The UTF-8 decoder and the cuts between chunks *)

Lemma utf8_run_app (st : Utf8.state) (a b : list N) :
  Utf8.run st (a ++ b) =
  let '(o1, s1) := Utf8.run st a in
  let '(o2, s2) := Utf8.run s1 b in (o1 ++ o2, s2).
Proof.
  revert st. induction a as [|x a IH]; intros st.
  - simpl. by destruct (Utf8.run st b).
  - simpl. destruct (Utf8.handle st x) as [o s].
    rewrite IH. destruct (Utf8.run s a) as [o1 s1].
    destruct (Utf8.run s1 b) as [o2 s2]. by rewrite app_assoc.
Qed.

Lemma utf8_set_bom_same (st : Utf8.state) :
  utf8_set_bom (Utf8.BOM_seen st) st = st.
Proof. by destruct st. Qed.

Lemma utf8_handle_set_bom (seen : bool) (st : Utf8.state) (b : N) :
  Utf8.handle (utf8_set_bom seen st) b =
  ((Utf8.handle st b).1, utf8_set_bom seen (Utf8.handle st b).2).
Proof.
  unfold Utf8.handle, Utf8.lead, utf8_set_bom, Utf8.fresh, Utf8.expect.
  cbn [Utf8.bytes_needed Utf8.BOM_seen Utf8.lower_boundary
       Utf8.upper_boundary Utf8.code_point Utf8.bytes_seen].
  repeat case_match; simplify_eq; reflexivity.
Qed.

Lemma utf8_run_set_bom (seen : bool) (input : list N) :
  forall st,
    Utf8.run (utf8_set_bom seen st) input =
    ((Utf8.run st input).1, utf8_set_bom seen (Utf8.run st input).2).
Proof.
  induction input as [|b rest IH]; intros st; [reflexivity|].
  cbn [Utf8.run]. rewrite utf8_handle_set_bom.
  destruct (Utf8.handle st b) as [o s]. cbn [fst snd]. rewrite IH.
  by destruct (Utf8.run s rest).
Qed.

Lemma utf8_handle_bom (st : Utf8.state) (b : N) :
  Utf8.BOM_seen (Utf8.handle st b).2 = Utf8.BOM_seen st.
Proof.
  unfold Utf8.handle, Utf8.lead, Utf8.fresh, Utf8.expect.
  repeat case_match; simplify_eq; reflexivity.
Qed.

Lemma utf8_run_bom (input : list N) :
  forall st, Utf8.BOM_seen (Utf8.run st input).2 = Utf8.BOM_seen st.
Proof.
  induction input as [|b rest IH]; intros st; [reflexivity|].
  cbn [Utf8.run]. pose proof (utf8_handle_bom st b) as Hb.
  destruct (Utf8.handle st b) as [o s]. specialize (IH s).
  destruct (Utf8.run s rest) as [more s']. cbn [snd] in *. congruence.
Qed.

Lemma utf8_serialize (st : Utf8.state) (out : list N) :
  Utf8.serialize st out =
  (utf8_strip (Utf8.BOM_seen st) out,
   utf8_set_bom (Utf8.BOM_seen st || negb (bool_decide (out = []))) st).
Proof.
  unfold Utf8.serialize, utf8_strip.
  destruct (Utf8.BOM_seen st) eqn:Hseen; cbn [orb].
  - by rewrite <- Hseen, utf8_set_bom_same.
  - destruct out as [|cp rest]; [|reflexivity].
    cbn. by rewrite <- Hseen, utf8_set_bom_same.
Qed.

Lemma utf8_strip_app (seen : bool) (o1 o2 : list N) :
  utf8_strip seen (o1 ++ o2) =
  utf8_strip seen o1 ++
  utf8_strip (seen || negb (bool_decide (o1 = []))) o2.
Proof.
  unfold utf8_strip. destruct seen; [reflexivity|].
  destruct o1 as [|cp rest]; [reflexivity|].
  cbn. by destruct (cp =? 65279)%N.
Qed.

Lemma utf8_text_of_app (a b : list N) :
  Utf8.text_of (a ++ b) = Utf8.text_of a +:+ Utf8.text_of b.
Proof.
  unfold Utf8.text_of. rewrite map_app, concat_app.
  generalize (concat (map Utf8.encode a)) (concat (map Utf8.encode b)).
  intros x y. induction x as [|c x IH]; [reflexivity|].
  change (String (ascii_of_N c)
            (foldr (fun b s => String (ascii_of_N b) s) "" (x ++ y)) =
          String (ascii_of_N c)
            (foldr (fun b s => String (ascii_of_N b) s) "" x +:+
             foldr (fun b s => String (ascii_of_N b) s) "" y)).
  by rewrite IH.
Qed.

Lemma utf8_chunks_whole (pending : list (list byte)) :
  forall st : Utf8.state,
    String.concat "" (deltas st pending) +:+
    decode_end (decoder_after st pending) =
    utf8_whole st (concat (map (map Byte.to_N) pending)).
Proof.
  induction pending as [|value rest IH]; intros st.
  - cbn [deltas decoder_after String.concat map concat].
    unfold utf8_whole. cbn [Utf8.run app]. cbn [decode_end utf8_decoder].
    unfold Utf8.decode_end. rewrite utf8_serialize. reflexivity.
  - cbn [deltas decoder_after map concat].
    cbn [decode_stream utf8_decoder]. unfold Utf8.decode_stream.
    pose proof (utf8_run_bom (map Byte.to_N value) st) as Hbom.
    unfold utf8_whole at 1. rewrite utf8_run_app.
    destruct (Utf8.run st (map Byte.to_N value)) as [o1 s1].
    cbn [snd] in Hbom. rewrite utf8_serialize, Hbom. cbn [snd].
    rewrite concat_cons, append_assoc, IH.
    unfold utf8_whole. rewrite utf8_run_set_bom.
    destruct (Utf8.run s1 (concat (map (map Byte.to_N) rest))) as [oR sR].
    cbn [fst snd Utf8.BOM_seen utf8_set_bom].
    rewrite <- app_assoc, (utf8_strip_app (Utf8.BOM_seen st) o1).
    rewrite (utf8_text_of_app (utf8_strip (Utf8.BOM_seen st) o1)).
    reflexivity.
Qed.

(** X20.  With the UTF-8 decoder, the text of a streamed reply depends on
    the bytes alone: two ways of cutting the same bytes into chunks, also
    through the middle of a character, decode to the same text. *)
Theorem decoded_text_ignores_the_cuts (cut cut' : list (list byte)) :
  concat cut = concat cut' ->
  decoded_text cut = decoded_text cut'.
Proof.
  intros Hsame. unfold decoded_text.
  rewrite !utf8_chunks_whole. f_equal.
  by rewrite <- !concat_map, Hsame.
Qed.

(** ** The components and the longer runs, on the scenarios *)

Ltac by_computation := apply (bool_decide_unpack _); vm_compute; exact I.

Lemma distinct_random_parts_distinct_ids :
  createId "user" "7f" <> createId "bot" "7f" /\
  createId "bot" "7f" <> createId "bot" "7e".
Proof.
  destruct createId_tells_apart as [Hapart Hinj].
  split; [apply Hapart|].
  intros Hsame. apply Hinj in Hsame. discriminate Hsame.
Defined.

Lemma hello_is_appended_to_talk :
  exists b,
    messages (app (handleSend (answer hello_stream) "u" "b" "Say hello"
                     talking).2) =
      talk ++ [userMessage "u" "Say hello"; b] /\
    id b = "bot-b" /\ role b = bot.
Proof.
  apply (send_appends_one_pair (answer hello_stream) "u" "b" "Say hello"
           talking); [by_computation | right; reflexivity].
Defined.

Lemma talk_ids_stay_distinct :
  NoDup (id <$> messages (app (handleSend (answer hello_stream) "u" "b"
                                 "Say hello" talking).2)).
Proof.
  apply send_keeps_ids_distinct; by_computation.
Defined.

Lemma tidied_text_is_stored :
  let run := handleSaveEdit (answer tidied_json) talk "bot-1" "hello"
               talking in
  run.1 = Normal tt /\
  messages (app run.2) !! 1 =
    Some {| id := "bot-1"; role := bot; content := "Hello.";
            turnId := Some "t1"; status := Some ready; error := None |}.
Proof.
  destruct (json_save_takes_backend_text (answer tidied_json) talk "bot-1"
              "hello" "t1" "Hello." replied talking tidied_json _
              eq_refl eq_refl ltac:(discriminate) eq_refl eq_refl eq_refl
              eq_refl eq_refl) as [Hdone Hkept].
  split; [exact Hdone | exact (Hkept 1 replied eq_refl eq_refl)].
Defined.

Lemma refused_save_touches_one_message :
  let run := handleSaveEdit (answer (refusal 400)) talk "bot-1" "Hello!"
               talking in
  requests run.2 = [save_edit_request (Some "t1") "Hello!"] /\
  id <$> messages (app run.2) = ["user-1"; "bot-1"; "bot-2"] /\
  messages (app run.2) !! 2 = Some streamed /\
  errorMessage (app run.2) = None.
Proof.
  destruct (save_touches_only_its_message (answer (refusal 400)) talk
              "bot-1" "Hello!" "t1" replied talking eq_refl eq_refl
              ltac:(discriminate))
    as (Hreq & Hids & _ & _ & Hother & Herr & _).
  split; [exact Hreq|]. split; [exact Hids|].
  split; [|exact Herr].
  apply (Hother 2 streamed); [reflexivity | discriminate].
Defined.

Lemma broken_json_is_warned_about :
  warnings (handleSaveEdit (answer broken_json) talk "bot-1" "Hello!"
              talking).2 =
  [("Unable to parse JSON response from save_edit",
    JsError "Unexpected token in JSON")].
Proof.
  exact (save_warns_on_unparsed_json (answer broken_json) talk "bot-1"
           "Hello!" "t1" replied talking eq_refl eq_refl
           ltac:(discriminate)).
Defined.

Lemma hi_reply_is_edited_with_t1 :
  let after := (handleSend (answer hi_json) "u" "b" "Say hi" talking).2 in
  requests (handleSaveEdit (answer hello_text) (messages (app after))
              "bot-b" "hi!" after).2 =
  [generate_request "Say hi"; save_edit_request (Some "t1") "hi!"].
Proof.
  exact (reply_with_turn_id_can_be_edited (answer hi_json)
           (answer hello_text) "u" "b" "Say hi" talking
           (ready_bot "b" "hi" (Some "t1")) "t1" "hi!"
           ltac:(by_computation) eq_refl eq_refl ltac:(discriminate)).
Defined.

Lemma streamed_hello_is_not_edited :
  let after :=
    (handleSend (answer hello_stream) "u" "b" "Say hello" talking).2 in
  handleSaveEdit (answer hello_text) (messages (app after)) "bot-b"
    "Hello!" after =
  (Throw (JsError "Missing turn ID for this message."), after).
Proof.
  exact (reply_without_turn_id_cannot_be_edited (answer hello_stream)
           (answer hello_text) "u" "b" "Say hello" talking
           (ready_bot "b" "Hello" None) "Hello!"
           ltac:(by_computation) eq_refl eq_refl).
Defined.

Lemma spaces_are_not_submitted :
  handleSubmit (handleSend (answer hi_json) "u" "b") (setErrorMessage None)
    (typed "   ") =
  (Normal tt, typed "   ").
Proof.
  apply blank_or_busy_submit_does_nothing. left. reflexivity.
Defined.

Lemma offline_submit_keeps_prompt :
  handleSubmit (fun _ => offline) (setErrorMessage None)
    (typed "  Say hi ") =
  (Throw (JsError "offline"),
   {| world := with_errorMessage None talking;
      input := {| prompt := "  Say hi "; isSubmitting := false |};
      chat := quiet |}).
Proof.
  exact (submit_clears_prompt_after_send (fun _ => offline)
           (setErrorMessage None) (typed "  Say hi ")
           (with_errorMessage None talking) eq_refl eq_refl eq_refl).
Defined.

Lemma refused_prompt_is_cleared_all_the_same :
  let run := submit_prompt (answer (refusal 500)) "u" "b"
               (typed "  Say hi ") in
  run.1 = Normal tt /\
  input run.2 = {| prompt := ""; isSubmitting := false |} /\
  messages (app (world run.2)) !! 3 = Some (userMessage "u" "Say hi") /\
  errorMessage (app (world run.2)) =
    Some "Unable to generate response (500)".
Proof.
  pose proof (submitted_prompt_is_always_cleared (answer (refusal 500))
                "u" "b" (typed "  Say hi ") eq_refl eq_refl) as Hrun.
  cbv zeta. rewrite Hrun. repeat split.
Defined.

Lemma blank_draft_stays_in_editor :
  handleSave (handleSaveEdit (answer hello_text) talk) replied
    (editing replied "  ") =
  (Normal tt,
   {| world := talking;
      input := {| prompt := ""; isSubmitting := false |};
      chat := {| editingId := Some "bot-1"; draft := "  ";
                 savedIndicator := ∅;
                 localError := Some "Response cannot be empty." |} |}).
Proof.
  exact (blank_draft_is_not_saved (handleSaveEdit (answer hello_text) talk)
           replied (editing replied "  ") eq_refl).
Defined.

Lemma offline_save_keeps_editor_open :
  handleSave (fun _ _ => offline) replied (editing replied " Hello! ") =
  (Normal tt,
   {| world := talking;
      input := {| prompt := ""; isSubmitting := false |};
      chat := {| editingId := Some "bot-1"; draft := " Hello! ";
                 savedIndicator := ∅;
                 localError := Some "offline" |} |}).
Proof.
  exact (save_closes_editor_only_on_success (fun _ _ => offline) replied
           (editing replied " Hello! ") eq_refl).
Defined.

Lemma refused_save_shows_400_twice :
  let run := save_draft (answer (refusal 400)) replied
               (editing replied " Hello! ") in
  chat run.2 =
    {| editingId := Some "bot-1"; draft := " Hello! "; savedIndicator := ∅;
       localError := Some "Unable to save edit (400)" |} /\
  messages (app (world run.2)) !! 1 =
    Some {| id := "bot-1"; role := bot; content := "Hello";
            turnId := Some "t1"; status := Some ready;
            error := Some "Unable to save edit (400)" |}.
Proof.
  destruct (failed_save_keeps_draft_and_reply (answer (refusal 400)) replied
              replied (editing replied " Hello! ") "t1" _
              eq_refl eq_refl ltac:(discriminate) eq_refl
              (save_bad_status (answer (refusal 400)) _ (refusal 400)
                 eq_refl eq_refl)) as (_ & Hchat & Hstore).
  split; [exact Hchat | exact (Hstore 1 replied eq_refl eq_refl)].
Defined.

Lemma accepted_save_stores_trimmed_draft :
  let run := save_draft (answer hello_text) replied
               (editing replied " Hello! ") in
  chat run.2 =
    {| editingId := None; draft := "";
       savedIndicator := <["bot-1" := true]> ∅; localError := None |} /\
  messages (app (world run.2)) !! 1 =
    Some {| id := "bot-1"; role := bot; content := "Hello!";
            turnId := Some "t1"; status := Some ready; error := None |}.
Proof.
  destruct (saved_draft_reaches_store (answer hello_text) replied replied
              (editing replied " Hello! ") "t1" hello_text
              eq_refl eq_refl ltac:(discriminate) eq_refl eq_refl eq_refl
              eq_refl) as (_ & Hchat & Hstore).
  split; [exact Hchat | exact (Hstore 1 replied eq_refl eq_refl)].
Defined.

Lemma saved_mark_of_the_reply :
  let saved :=
    (handleSave (handleSaveEdit (answer hello_text) talk) replied
       (editing replied " Hello! ")).2 in
  actions_shown saved replied = [EditButton false; SavedBadge] /\
  actions_shown (startEditing replied saved).2 replied =
    [CancelButton false; SaveButton false] /\
  actions_shown (cancelEditing (startEditing replied saved).2).2 replied =
    [EditButton false].
Proof.
  exact (saved_mark_lasts_until_next_edit
           (handleSaveEdit (answer hello_text) talk) replied
           (editing replied " Hello! ")
           (handleSaveEdit (answer hello_text) talk "bot-1" "Hello!"
              talking).2
           eq_refl eq_refl eq_refl eq_refl).
Defined.

Lemma reply_with_controls_can_be_saved :
  message_actions quiet false asked = [] /\
  message_actions quiet false streamed = [] /\
  requests (handleSaveEdit (answer hello_text) talk "bot-1" "Hello!"
              talking).2 =
    [save_edit_request (Some "t1") "Hello!"].
Proof.
  split; [|split].
  - apply (proj1 (offered_controls_pass_the_guard (answer hello_text) quiet
                    false talk asked "" talking)). by left.
  - apply (proj1 (offered_controls_pass_the_guard (answer hello_text) quiet
                    false talk streamed "" talking)). by right.
  - apply (proj2 (offered_controls_pass_the_guard (answer hello_text) quiet
                    false talk replied "Hello!" talking));
      [by_computation | repeat constructor | discriminate].
Defined.

Lemma split_character_same_text :
  decoded_text [bytes_of "h" ++ [xc3]; xa9 :: bytes_of "llo"] =
  decoded_text [bytes_of "h" ++ xc3 :: xa9 :: bytes_of "llo"].
Proof. apply decoded_text_ignores_the_cuts. reflexivity. Defined.

Lemma cut_off_hello_showed_prefixes :
  is_prefix "He" "Hello".
Proof.
  assert (Hseen :
    Some (streaming_bot "b" "He") ∈
    seen_at (bot_slot (start empty_app))
      (installed (start empty_app)
         (handleSend (answer hello_cut_off) "u" "b" "Say hello"
            (start empty_app)).2)).
  { vm_compute. repeat constructor. }
  exact (streaming_values_are_prefixes (answer hello_cut_off) "u" "b"
           "Say hello" (start empty_app) hello_cut_off _
           (streaming_bot "b" "He") eq_refl eq_refl eq_refl eq_refl
           Hseen eq_refl).
Defined.
